(** * FRACTURA.Δ02 script suite (fractura.py): a shallow embedding

    The Python program extracts two families of text entries from a JSON
    configuration, writes each family to a numbered text report, reads the
    reports back and fuses them into a shuffled, glyph-decorated chant.

    Python values are modelled as follows.
    - A [str] is the list of its Unicode code points ([pystr]).
    - A JSON value is the inductive [json] (floating-point numbers are left
      out: no field the program reads is expected to hold one).
    - Effects (the files of the outputs directory, list objects that are
      mutated in place, the random source, the clock and the log) live in a
      [world] that every operation threads; an exception leaves through
      [Exc], a normal return through [Ret].

    What the model takes from the platform: files are written as on POSIX
    (a line end is written as LF) and read with universal newlines; a path
    exists exactly when the outputs directory holds a file under it;
    [random.shuffle] is CPython's loop over [_randbelow]; [strftime] pads
    its fields with zeros.  The set-up of [LuxUtils] (logging handlers,
    creation of the outputs directory) and the command-line dispatch of
    [main] are not modelled; what [load_json_data] finds at the configuration
    path is part of the world. *)

From Stdlib Require Import ZArith NArith Ascii String.
From stdpp Require Import base numbers list option gmap strings.

Local Set Warnings "-register-all,-clear-no-such-hyp".
Open Scope N_scope.

(** ** Python strings as code points *)

Abbreviation pystr := (list N).

(** Decoding of the UTF-8 bytes of a source literal into code points, so that
    literals can be written exactly as they appear in fractura.py. *)
Fixpoint utf8_decode (bs : list N) : pystr :=
  match bs with
  | [] => []
  | b0 :: r0 =>
      if b0 <? 128 then b0 :: utf8_decode r0
      else if b0 <? 224 then
        match r0 with
        | b1 :: r1 => ((b0 - 192) * 64 + (b1 - 128)) :: utf8_decode r1
        | _ => []
        end
      else if b0 <? 240 then
        match r0 with
        | b1 :: b2 :: r2 =>
            ((b0 - 224) * 4096 + (b1 - 128) * 64 + (b2 - 128)) :: utf8_decode r2
        | _ => []
        end
      else
        match r0 with
        | b1 :: b2 :: b3 :: r3 =>
            ((b0 - 240) * 262144 + (b1 - 128) * 4096 + (b2 - 128) * 64 + (b3 - 128))
              :: utf8_decode r3
        | _ => []
        end
  end.

Definition py (s : string) : pystr :=
  utf8_decode (map N_of_ascii (list_ascii_of_string s)).

Definition LF : N := 10.
Definition CR : N := 13.
Definition SP : N := 32.

(** [str.isspace] on one code point: the code points CPython's
    [_PyUnicode_IsWhitespace] accepts; [str.strip()] and [str.split()] use
    the same test. *)
Definition py_isspace (c : N) : bool :=
  ((9 <=? c) && (c <=? 13)) || ((28 <=? c) && (c <=? 32))
  || (c =? 133) || (c =? 160) || (c =? 5760)
  || ((8192 <=? c) && (c <=? 8202))
  || (c =? 8232) || (c =? 8233) || (c =? 8239) || (c =? 8287) || (c =? 12288).

Fixpoint lstrip (s : pystr) : pystr :=
  match s with
  | [] => []
  | c :: t => if py_isspace c then lstrip t else s
  end.

Definition rstrip (s : pystr) : pystr := rev (lstrip (rev s)).

(** [s.strip()] *)
Definition strip (s : pystr) : pystr := rstrip (lstrip s).

(** [s.startswith(p)] *)
Fixpoint startswith (p s : pystr) : bool :=
  match p, s with
  | [], _ => true
  | a :: p', b :: s' => (a =? b) && startswith p' s'
  | _ :: _, [] => false
  end.

(** [sub in s] *)
Fixpoint str_in (sub s : pystr) : bool :=
  startswith sub s ||
  match s with
  | [] => false
  | _ :: t => str_in sub t
  end.

(** The cut of [s] at the first occurrence of the (non-empty) separator. *)
Fixpoint cut_first (sep s : pystr) : option (pystr * pystr) :=
  if startswith sep s then Some ([], drop (length sep) s)
  else
    match s with
    | [] => None
    | c :: t =>
        match cut_first sep t with
        | Some (a, b) => Some (c :: a, b)
        | None => None
        end
    end.

(** [s.split(sep, 1)]: one or two pieces. *)
Definition split1 (sep s : pystr) : list pystr :=
  match cut_first sep s with
  | Some (a, b) => [a; b]
  | None => [s]
  end.

(** [s.split()]: the maximal runs of non-whitespace code points. *)
Fixpoint split_ws_aux (cur : pystr) (s : pystr) : list pystr :=
  match s with
  | [] => match cur with [] => [] | _ => [rev cur] end
  | c :: t =>
      if py_isspace c
      then match cur with
           | [] => split_ws_aux [] t
           | _ => rev cur :: split_ws_aux [] t
           end
      else split_ws_aux (c :: cur) t
  end.

Definition split_ws (s : pystr) : list pystr := split_ws_aux [] s.

(** [sep.join(parts)] *)
Fixpoint join (sep : pystr) (parts : list pystr) : pystr :=
  match parts with
  | [] => []
  | [p] => p
  | p :: rest => p ++ sep ++ join sep rest
  end.

(** [s * n] *)
Definition str_repeat (s : pystr) (n : nat) : pystr := mjoin (replicate n s).

(** Decimal digits of a natural number, most significant first. *)
Fixpoint uint_digits (d : Decimal.uint) : pystr :=
  match d with
  | Decimal.Nil => []
  | Decimal.D0 d => 48 :: uint_digits d
  | Decimal.D1 d => 49 :: uint_digits d
  | Decimal.D2 d => 50 :: uint_digits d
  | Decimal.D3 d => 51 :: uint_digits d
  | Decimal.D4 d => 52 :: uint_digits d
  | Decimal.D5 d => 53 :: uint_digits d
  | Decimal.D6 d => 54 :: uint_digits d
  | Decimal.D7 d => 55 :: uint_digits d
  | Decimal.D8 d => 56 :: uint_digits d
  | Decimal.D9 d => 57 :: uint_digits d
  end.

(** [str(n)] for a non-negative integer. *)
Definition str_of_nat (n : nat) : pystr := uint_digits (Nat.to_uint n).

(** [f"{n:2d}"]: right-aligned in a field of width 2, padded with spaces. *)
Definition format_2d (n : nat) : pystr :=
  let d := str_of_nat n in replicate (2 - length d) SP ++ d.

(** [f"{n:02d}"] and [f"{n:04d}"], as [strftime] pads its fields. *)
Definition zero_pad (width n : nat) : pystr :=
  let d := str_of_nat n in replicate (width - length d) 48 ++ d.

(** Universal-newline [readlines()]: the text is cut after every line end
    (LF, CR or CR LF, each read as LF) and every piece keeps its LF. *)
Fixpoint readlines_aux (cur : pystr) (s : pystr) : list pystr :=
  match s with
  | [] => match cur with [] => [] | _ => [rev cur] end
  | c :: t =>
      if c =? LF then rev (LF :: cur) :: readlines_aux [] t
      else if c =? CR then
        match t with
        | c' :: t' =>
            if c' =? LF then rev (LF :: cur) :: readlines_aux [] t'
            else rev (LF :: cur) :: readlines_aux [] t
        | [] => rev (LF :: cur) :: readlines_aux [] t
        end
      else readlines_aux (c :: cur) t
  end.

Definition readlines (text : pystr) : list pystr := readlines_aux [] text.

(** A code point the UTF-8 codec can write: surrogates are refused. *)
Definition encodable_char (c : N) : bool :=
  (c <? 55296) || ((57343 <? c) && (c <? 1114112)).

Definition encodable (s : pystr) : bool := forallb encodable_char s.

(** ** JSON values, as [json.load] builds them *)

Inductive json :=
  | JNull
  | JBool (b : bool)
  | JInt (z : Z)
  | JStr (s : pystr)
  | JList (items : list json)
  | JDict (entries : list (pystr * json)).

(** The part of the Python runtime that depends on Unicode tables: which
    non-ASCII code points [str.isdigit] accepts, and how [format] prints a
    list or a dict (the [repr] of the strings inside escapes the code points
    that are not printable). *)
Class PyRuntime := {
  isdigit_nonascii : N -> bool;
  container_str : json -> pystr
}.

(** The truth value of an object ([if x:]). *)
Definition truthy (v : json) : bool :=
  match v with
  | JNull => false
  | JBool b => b
  | JInt z => negb (z =? 0)%Z
  | JStr s => negb (bool_decide (s = []))
  | JList l => negb (bool_decide (l = []))
  | JDict d => negb (bool_decide (d = []))
  end.

(** [a == b] between hashable values ([True == 1] and [False == 0]). *)
Definition py_eq (a b : json) : bool :=
  match a, b with
  | JNull, JNull => true
  | JBool x, JBool y => bool_decide (x = y)
  | JBool x, JInt z | JInt z, JBool x => (z =? (if x then 1 else 0))%Z
  | JInt x, JInt y => (x =? y)%Z
  | JStr s, JStr t => bool_decide (s = t)
  | _, _ => false
  end.

(** Lists and dicts have no hash: they can neither enter a set nor be
    looked up in one. *)
Definition hashable (v : json) : bool :=
  match v with
  | JList _ | JDict _ => false
  | _ => true
  end.

(** [x in seen] for a set [seen] of hashable values. *)
Definition set_contains (seen : list json) (x : json) : bool :=
  existsb (py_eq x) seen.

Fixpoint assoc (k : pystr) (d : list (pystr * json)) : option json :=
  match d with
  | [] => None
  | (k', v) :: rest => if bool_decide (k' = k) then Some v else assoc k rest
  end.

(** The keys of a dict, in insertion order. *)
Fixpoint dict_keys (d : list (pystr * json)) : list pystr :=
  match d with
  | [] => []
  | (k, _) :: rest => k :: filter (λ k', k' ≠ k) (dict_keys rest)
  end.

Inductive exn :=
  | AttributeError
  | TypeError
  | OSError
  | UnicodeEncodeError
  | UnicodeDecodeError.

Definition exn_name (e : exn) : pystr :=
  match e with
  | AttributeError => py "AttributeError"
  | TypeError => py "TypeError"
  | OSError => py "OSError"
  | UnicodeEncodeError => py "UnicodeEncodeError"
  | UnicodeDecodeError => py "UnicodeDecodeError"
  end.

(** What iterating over an object yields ([for x in v], [list.extend(v)]):
    the items of a list, the one-character strings of a str, the keys of a
    dict; anything else is not iterable. *)
Definition py_iter (v : json) : exn + list json :=
  match v with
  | JList l => inr l
  | JStr s => inr (map (λ c, JStr [c]) s)
  | JDict d => inr (map JStr (dict_keys d))
  | _ => inl TypeError
  end.

(** [obj.get(key, default)]: only a dict has the method. *)
Definition py_get (obj : json) (key : pystr) (dflt : json) : exn + json :=
  match obj with
  | JDict d => inr (default dflt (assoc key d))
  | _ => inl AttributeError
  end.

Definition str_of_Z (z : Z) : pystr :=
  if (z <? 0)%Z then 45 :: str_of_nat (Z.to_nat (- z)) else str_of_nat (Z.to_nat z).

(** [f"{v}"] *)
Definition format_value `{PyRuntime} (v : json) : pystr :=
  match v with
  | JStr s => s
  | JNull => py "None"
  | JBool true => py "True"
  | JBool false => py "False"
  | JInt z => str_of_Z z
  | _ => container_str v
  end.

(** [str.isdigit] on one code point, then on a string. *)
Definition char_isdigit `{PyRuntime} (c : N) : bool :=
  if c <? 128 then (48 <=? c) && (c <=? 57) else isdigit_nonascii c.

Definition str_isdigit `{PyRuntime} (s : pystr) : bool :=
  negb (bool_decide (s = [])) && forallb char_isdigit s.

(** ** The world the program runs in *)

Record datetime := DateTime {
  year : nat; month : nat; day : nat; hour : nat; minute : nat; second : nat
}.

(** [t.strftime('%Y-%m-%d %H:%M:%S')] *)
Definition strftime (t : datetime) : pystr :=
  zero_pad 4 (year t) ++ py "-" ++ zero_pad 2 (month t) ++ py "-" ++ zero_pad 2 (day t)
  ++ py " " ++ zero_pad 2 (hour t) ++ py ":" ++ zero_pad 2 (minute t) ++ py ":"
  ++ zero_pad 2 (second t).

Inductive level := INFO | WARNING | ERROR.

(** What [LuxUtils.load_json_data] finds at the configuration path. *)
Inductive config_state :=
  | ConfigAbsent
  | ConfigUnreadable
  | ConfigMalformed
  | ConfigLoaded (data : json).

(** The bytes of a file: the UTF-8 encoding of a text, or something else. *)
Inductive file_data :=
  | Text (t : pystr)
  | Undecodable.

Record world := World {
  config : config_state;
  files : gmap string file_data;
  unreadable : gset string;
  unwritable : gset string;
  heap : gmap positive (list pystr);
  rand : nat -> nat;
  rand_pos : nat;
  clock : nat -> datetime;
  clock_pos : nat;
  log : list (level * pystr)
}.

Definition set_files (f : gmap string file_data) (w : world) : world :=
  World (config w) f (unreadable w) (unwritable w) (heap w)
        (rand w) (rand_pos w) (clock w) (clock_pos w) (log w).

Definition set_heap (h : gmap positive (list pystr)) (w : world) : world :=
  World (config w) (files w) (unreadable w) (unwritable w) h
        (rand w) (rand_pos w) (clock w) (clock_pos w) (log w).

Definition set_rand_pos (n : nat) (w : world) : world :=
  World (config w) (files w) (unreadable w) (unwritable w) (heap w)
        (rand w) n (clock w) (clock_pos w) (log w).

Definition set_clock_pos (n : nat) (w : world) : world :=
  World (config w) (files w) (unreadable w) (unwritable w) (heap w)
        (rand w) (rand_pos w) (clock w) n (log w).

Definition set_log (l : list (level * pystr)) (w : world) : world :=
  World (config w) (files w) (unreadable w) (unwritable w) (heap w)
        (rand w) (rand_pos w) (clock w) (clock_pos w) l.

(** ** Computations: state passing with exceptions *)

Inductive result (A : Type) :=
  | Ret (a : A) (w : world)
  | Exc (e : exn) (w : world).
Arguments Ret {A} a w.
Arguments Exc {A} e w.

Definition M (A : Type) : Type := world -> result A.

Definition ret {A} (a : A) : M A := λ w, Ret a w.

Definition raise {A} (e : exn) : M A := λ w, Exc e w.

Definition bind {A B} (m : M A) (k : A -> M B) : M B :=
  λ w, match m w with
       | Ret a w' => k a w'
       | Exc e w' => Exc e w'
       end.

Notation "x <- m ;; k" := (bind m (λ x, k))
  (at level 100, m at next level, right associativity).
Notation "m ;; k" := (bind m (λ _, k))
  (at level 100, right associativity).

(** [try: body except Exception as e: handler e] *)
Definition try_except {A} (body : M A) (handler : exn -> M A) : M A :=
  λ w, match body w with
       | Ret a w' => Ret a w'
       | Exc e w' => handler e w'
       end.

(** A pure step that may raise. *)
Definition lift {A} (r : exn + A) : M A :=
  match r with
  | inr a => ret a
  | inl e => raise e
  end.

(** [for x in l: body x] *)
Fixpoint for_each {A} (l : list A) (body : A -> M unit) : M unit :=
  match l with
  | [] => ret tt
  | x :: rest => body x ;; for_each rest body
  end.

(** [logger.info(msg)], [logger.warning(msg)], [logger.error(msg)] *)
Definition logger (lv : level) (msg : pystr) : M unit :=
  λ w, Ret tt (set_log (log w ++ [(lv, msg)]) w).

(** [datetime.now()] *)
Definition now : M datetime :=
  λ w, Ret (clock w (clock_pos w)) (set_clock_pos (S (clock_pos w)) w).

(** [random._randbelow(n)] for [n > 0] *)
Definition randbelow (n : nat) : M nat :=
  λ w, Ret (rand w (rand_pos w) `mod` n)%nat (set_rand_pos (S (rand_pos w)) w).

(** *** List objects *)

(** A new list object holding [l]. *)
Definition new_list (l : list pystr) : M positive :=
  λ w, let r := fresh (dom (heap w)) in Ret r (set_heap (<[r := l]> (heap w)) w).

(** The current items of the list object [r]. *)
Definition items (r : positive) : M (list pystr) :=
  λ w, Ret (default [] (heap w !! r)) w.

(** [x[i], x[j] = x[j], x[i]] on the list object [x]: the right-hand side
    is read first, then [x[i]] and [x[j]] are assigned in that order. *)
Definition swap_items (x : positive) (i j : nat) : M unit :=
  λ w, let l := default [] (heap w !! x) in
       let xi := default [] (l !! i) in
       let xj := default [] (l !! j) in
       Ret tt (set_heap (<[x := <[j := xi]> (<[i := xj]> l)]> (heap w)) w).

(** [random.shuffle(x)]: for [i] from [len(x) - 1] down to 1, exchange
    [x[i]] with [x[j]] for a random [j <= i]. *)
Definition shuffle (x : positive) : M unit :=
  l <- items x ;;
  for_each (rev (seq 1 (length l - 1)))
           (λ i, j <- randbelow (i + 1) ;; swap_items x i j).

(** *** Files *)

(** [LuxUtils.get_output_path], relative to the project root. *)
Definition get_output_path (filename : string) : string :=
  ("outputs/" ++ filename)%string.

(** [path.exists()] *)
Definition path_exists (p : string) : M bool :=
  λ w, Ret (bool_decide (is_Some (files w !! p))) w.

(** [open(p, 'r', encoding='utf-8')] followed by [f.readlines()] *)
Definition read_lines (p : string) : M (list pystr) :=
  λ w, match files w !! p with
       | None => Exc OSError w
       | Some d =>
           if bool_decide (p ∈ unreadable w) then Exc OSError w
           else match d with
                | Text t => Ret (readlines t) w
                | Undecodable => Exc UnicodeDecodeError w
                end
       end.

(** [open(p, 'w', encoding='utf-8')]: the file is created or emptied. *)
Definition open_w (p : string) : M unit :=
  λ w, if bool_decide (p ∈ unwritable w) then Exc OSError w
       else Ret tt (set_files (<[p := Text []]> (files w)) w).

(** [f.write(chunk)] on the file opened at [p]; what was written before a
    failing call stays in the file when the [with] block is left. *)
Definition f_write (p : string) (chunk : pystr) : M unit :=
  λ w, if encodable chunk
       then match files w !! p with
            | Some (Text t) => Ret tt (set_files (<[p := Text (t ++ chunk)]> (files w)) w)
            | _ => Ret tt (set_files (<[p := Text chunk]> (files w)) w)
            end
       else Exc UnicodeEncodeError w.

(** ** The program *)

Section Program.
Context `{PyRuntime}.

(** *** LuxUtils *)

(** [LuxUtils.load_json_data]: [None] when the file is missing, is not
    valid JSON or cannot be read; the parsed value otherwise. *)
Definition load_json_data : M (option json) :=
  λ w, match config w with
       | ConfigAbsent =>
           (logger ERROR (py "JSON file not found: FRACTURA.Δ02.json") ;; ret None) w
       | ConfigMalformed =>
           (logger ERROR (py "Invalid JSON format: JSONDecodeError") ;; ret None) w
       | ConfigUnreadable =>
           (logger ERROR (py "Error loading JSON: OSError") ;; ret None) w
       | ConfigLoaded data =>
           (logger INFO (py "Successfully loaded JSON from: FRACTURA.Δ02.json") ;;
            ret (Some data)) w
       end.

(** *** SymbolExtractor *)

(** [acc.extend(v)] *)
Definition extend (acc : list json) (v : json) : exn + list json :=
  match py_iter v with
  | inr l => inr (acc ++ l)
  | inl e => inl e
  end.

(** The loop that removes duplicates while preserving order:
    [unique_symbols] grows at its end, [seen] is the set of values met. *)
Fixpoint unique_loop (all_symbols unique_symbols seen : list json) : exn + list json :=
  match all_symbols with
  | [] => inr unique_symbols
  | symbol :: rest =>
      if hashable symbol then
        if negb (set_contains seen symbol)
        then unique_loop rest (unique_symbols ++ [symbol]) (symbol :: seen)
        else unique_loop rest unique_symbols seen
      else inl TypeError
  end.

Definition _gather_all_symbols (data : json) : M (list json) :=
  let all_symbols := [] in
  symbolic_analysis <- lift (py_get data (py "symbolic_analysis") (JDict [])) ;;
  symbols <- lift (py_get symbolic_analysis (py "symbols") (JList [])) ;;
  all_symbols <- lift (extend all_symbols symbols) ;;
  aesthetic_techniques <-
    lift (py_get symbolic_analysis (py "aesthetic_techniques") (JList [])) ;;
  all_symbols <- lift (extend all_symbols aesthetic_techniques) ;;
  unique_symbols <- lift (unique_loop all_symbols [] []) ;;
  logger INFO (py "Gathered " ++ str_of_nat (length unique_symbols) ++ py " unique symbols") ;;
  ret unique_symbols.

(** [enumerate(l, 1)] *)
Definition enumerate1 {A} (l : list A) : list (nat * A) :=
  zip (seq 1 (length l)) l.

Definition _write_symbols_file (symbols : list json) (output_file : string) : M bool :=
  try_except
    (open_w output_file ;;
     f_write output_file (py "🔮 Symboles analysés dans FRACTURA.Δ02" ++ [LF]) ;;
     f_write output_file (str_repeat (py "=") 50 ++ [LF; LF]) ;;
     t <- now ;;
     f_write output_file (py "Extraction générée le: " ++ strftime t ++ [LF; LF]) ;;
     for_each (enumerate1 symbols)
       (λ '(i, symbol),
          f_write output_file (format_2d i ++ py ". " ++ format_value symbol ++ [LF])) ;;
     f_write output_file
       ([LF] ++ py "--- Total: " ++ str_of_nat (length symbols) ++ py " symboles ---" ++ [LF]) ;;
     logger INFO (py "✅ Symbols written successfully to: " ++ py output_file) ;;
     ret true)
    (λ e,
       logger ERROR (py "❌ Error writing symbols file: " ++ exn_name e) ;;
       ret false).

Definition extract_symbols : M bool :=
  logger INFO (py "🔮 Starting symbol extraction process") ;;
  data <- load_json_data ;;
  match data with
  | None => ret false
  | Some data =>
      if negb (truthy data) then ret false
      else
        symbols <- _gather_all_symbols data ;;
        if bool_decide (symbols = []) then
          logger WARNING (py "No symbols found in JSON data") ;;
          ret false
        else
          let output_file := get_output_path "symboles_extraits.txt" in
          _write_symbols_file symbols output_file
  end.

(** *** MantraExtractor *)

Definition _gather_all_mantras (data : json) : M (list json) :=
  let all_mantras := [] in
  narrative <- lift (py_get data (py "narrative_structures") (JDict [])) ;;
  mantras <- lift (py_get narrative (py "mantras") (JList [])) ;;
  all_mantras <- lift (extend all_mantras mantras) ;;
  archetype <- lift (py_get narrative (py "archetype") (JStr [])) ;;
  let all_mantras :=
    if truthy archetype
    then all_mantras ++ [JStr (py "[ARCHETYPE] " ++ format_value archetype)]
    else all_mantras in
  techniques <- lift (py_get narrative (py "techniques") (JList [])) ;;
  techniques <- lift (py_iter techniques) ;;
  let all_mantras :=
    fold_left (λ acc technique, acc ++ [JStr (py "[TECHNIQUE] " ++ format_value technique)])
              techniques all_mantras in
  logger INFO (py "Gathered " ++ str_of_nat (length all_mantras) ++ py " mantra elements") ;;
  ret all_mantras.

Definition _write_mantras_file (mantras : list json) (output_file : string) : M bool :=
  try_except
    (open_w output_file ;;
     f_write output_file (py "🗝️ Mantras extraits de FRACTURA.Δ02" ++ [LF]) ;;
     f_write output_file (str_repeat (py "=") 50 ++ [LF; LF]) ;;
     t <- now ;;
     f_write output_file (py "Extraction générée le: " ++ strftime t ++ [LF; LF]) ;;
     for_each (enumerate1 mantras)
       (λ '(i, mantra),
          f_write output_file (format_2d i ++ py ". " ++ format_value mantra ++ [LF])) ;;
     f_write output_file
       ([LF] ++ py "--- Total: " ++ str_of_nat (length mantras)
             ++ py " éléments narratifs ---" ++ [LF]) ;;
     logger INFO (py "✅ Mantras written successfully to: " ++ py output_file) ;;
     ret true)
    (λ e,
       logger ERROR (py "❌ Error writing mantras file: " ++ exn_name e) ;;
       ret false).

Definition extract_mantras : M bool :=
  logger INFO (py "🗝️ Starting mantra extraction process") ;;
  data <- load_json_data ;;
  match data with
  | None => ret false
  | Some data =>
      if negb (truthy data) then ret false
      else
        mantras <- _gather_all_mantras data ;;
        if bool_decide (mantras = []) then
          logger WARNING (py "No mantras found in JSON data") ;;
          ret false
        else
          let output_file := get_output_path "mantras_extraits.txt" in
          _write_mantras_file mantras output_file
  end.

(** *** GlitchChantGenerator *)

Definition glitch_symbols : list pystr :=
  [py "☿"; py "☄"; py "⚡"; py "◊"; py "∞"; py "△"; py "☆"; py "◈"].

(** [self.glitch_symbols[k]] for an index [k] within the list. *)
Definition glyph (k : Z) : pystr := default [] (glitch_symbols !! Z.to_nat k).

(** The test of the reading loop: the stripped line is kept when it is not
    empty and starts with none of the header, separator and footer marks. *)
Definition is_content (line : pystr) : bool :=
  negb (bool_decide (line = []))
  && negb (startswith (py "🔮") line)
  && negb (startswith (py "🗝️") line)
  && negb (startswith (py "=") line)
  && negb (startswith (py "---") line)
  && negb (startswith (py "Extraction générée") line)
  && negb (startswith (py "Total:") line).

(** [l[i]] where the index is known to exist. *)
Definition item (l : list pystr) (i : nat) : pystr := default [] (l !! i).

(** Remove numbering if present. *)
Definition unnumbered (line : pystr) : pystr :=
  if str_in (py ". ") line && str_isdigit (strip (item (split1 (py ". ") line) 0))
  then item (split1 (py ". ") line) 1
  else line.

Fixpoint content_loop (lines : list pystr) : list pystr :=
  match lines with
  | [] => []
  | line :: rest =>
      let line := strip line in
      if is_content line
      then unnumbered line :: content_loop rest
      else content_loop rest
  end.

Definition _load_extracted_content (filename : string) : M (list pystr) :=
  let file_path := get_output_path filename in
  present <- path_exists file_path ;;
  if negb present then
    logger WARNING (py "Extracted file not found: " ++ py file_path) ;;
    ret []
  else
    try_except
      (lines <- read_lines file_path ;;
       let content_lines := content_loop lines in
       logger INFO (py "Loaded " ++ str_of_nat (length content_lines) ++ py " lines from "
                       ++ py filename) ;;
       ret content_lines)
      (λ e,
         logger ERROR (py "Error loading " ++ py filename ++ py ": " ++ exn_name e) ;;
         ret []).

(** [words.insert(mid, symbol)] *)
Definition list_insert_at (mid : nat) (symbol : pystr) (words : list pystr) : list pystr :=
  take mid words ++ symbol :: drop mid words.

(** The body of the decoration loop at position [i]. *)
Definition glitch_line (i : nat) (line : pystr) : pystr :=
  let n := Z.of_nat (length glitch_symbols) in
  let i := Z.of_nat i in
  if (i `mod` 4 =? 0)%Z then
    let symbol := glyph (i `mod` n) in
    symbol ++ [SP] ++ line ++ [SP] ++ symbol
  else if (i `mod` 4 =? 1)%Z then
    let symbols :=
      mjoin (map (λ j, glyph (Z.of_nat j `mod` n)) (seq 0 (Z.to_nat (i `mod` 3 + 1)))) in
    symbols ++ [SP] ++ line
  else if (i `mod` 4 =? 2)%Z then
    let symbol := glyph ((- i) `mod` n) in
    line ++ [SP] ++ symbol
  else
    let words := split_ws line in
    if bool_decide (2 < length words)%nat then
      let mid := (length words / 2)%nat in
      let symbol := glyph (i `mod` n) in
      join [SP] (list_insert_at mid symbol words)
    else line.

(** [for i, line in enumerate(glitch_content)], from position [i] on. *)
Fixpoint glitch_loop (i : nat) (glitch_content : list pystr) : list pystr :=
  match glitch_content with
  | [] => []
  | line :: rest => glitch_line i line :: glitch_loop (S i) rest
  end.

Definition _create_glitched_fusion (content : positive) : M (list pystr) :=
  lines <- items content ;;
  if bool_decide (lines = []) then ret []
  else
    glitch_content <- new_list lines ;;
    shuffle glitch_content ;;
    shuffled <- items glitch_content ;;
    let processed_content := glitch_loop 0 shuffled in
    logger INFO (py "Applied glitch effects to " ++ str_of_nat (length processed_content)
                    ++ py " lines") ;;
    ret processed_content.

(** The call [self._create_glitched_fusion(symbols_content + mantras_content)]
    of [generate_chant]: the concatenation is a new list object. *)
Definition fuse (symbols_content mantras_content : list pystr) : M (list pystr) :=
  combined <- new_list (symbols_content ++ mantras_content) ;;
  _create_glitched_fusion combined.

Definition _write_chant_file (content : list pystr) (output_file : string) : M bool :=
  try_except
    (open_w output_file ;;
     f_write output_file (py "🔊 CHANT GLITCHÉ SACRÉ – FRACTURA.Δ02" ++ [LF]) ;;
     f_write output_file (str_repeat (py "=") 60 ++ [LF]) ;;
     f_write output_file (py "Par la Fracture vient la Vue" ++ [LF]) ;;
     f_write output_file (py "Lux contre Spectaculum" ++ [LF]) ;;
     f_write output_file (str_repeat (py "=") 60 ++ [LF; LF]) ;;
     t <- now ;;
     f_write output_file (py "Généré le: " ++ strftime t ++ [LF]) ;;
     f_write output_file (py "Éléments fusionnés: " ++ str_of_nat (length content) ++ [LF; LF]) ;;
     f_write output_file (py "--- INVOCATION ---" ++ [LF; LF]) ;;
     for_each content (λ line, f_write output_file (line ++ [LF])) ;;
     f_write output_file ([LF] ++ py "--- FIN DE L'INVOCATION ---" ++ [LF]) ;;
     f_write output_file (py "FRACTURA.Δ02 // Luxcordia.EXE" ++ [LF]) ;;
     logger INFO (py "✅ Glitch chant written successfully to: " ++ py output_file) ;;
     ret true)
    (λ e,
       logger ERROR (py "❌ Error writing chant file: " ++ exn_name e) ;;
       ret false).

Definition generate_chant : M bool :=
  logger INFO (py "🔊 Starting glitch chant generation") ;;
  symbols_content <- _load_extracted_content "symboles_extraits.txt" ;;
  mantras_content <- _load_extracted_content "mantras_extraits.txt" ;;
  if bool_decide (symbols_content = []) && bool_decide (mantras_content = []) then
    logger ERROR (py "No content available for chant generation") ;;
    ret false
  else
    glitched_content <- fuse symbols_content mantras_content ;;
    let output_file := get_output_path "chant_glitch_fusion.txt" in
    _write_chant_file glitched_content output_file.

(** *** FracturaOrchestrator *)

(** The three stage objects the orchestrator holds, by their entry points. *)
Record orchestrator := Orchestrator {
  symbol_extractor : M bool;
  mantra_extractor : M bool;
  chant_generator : M bool
}.

Definition FracturaOrchestrator : orchestrator :=
  Orchestrator extract_symbols extract_mantras generate_chant.

Definition run_complete_ritual (self : orchestrator) : M bool :=
  logger INFO (py "📜 DÉBUT DU RITUEL FRACTURA.Δ02") ;;
  logger INFO (str_repeat (py "=") 50) ;;
  let success_count := 0%nat in
  let total_steps := 3%nat in
  logger INFO (py "🔮 ÉTAPE 1/3: Extraction des symboles") ;;
  ok <- symbol_extractor self ;;
  success_count <-
    (if ok then logger INFO (py "✅ Extraction des symboles réussie") ;;
                ret (success_count + 1)%nat
     else logger ERROR (py "❌ Échec de l'extraction des symboles") ;;
          ret success_count) ;;
  logger INFO ([LF] ++ py "🗝️ ÉTAPE 2/3: Extraction des mantras") ;;
  ok <- mantra_extractor self ;;
  success_count <-
    (if ok then logger INFO (py "✅ Extraction des mantras réussie") ;;
                ret (success_count + 1)%nat
     else logger ERROR (py "❌ Échec de l'extraction des mantras") ;;
          ret success_count) ;;
  logger INFO ([LF] ++ py "🔊 ÉTAPE 3/3: Génération du chant glitché") ;;
  ok <- chant_generator self ;;
  success_count <-
    (if ok then logger INFO (py "✅ Génération du chant réussie") ;;
                ret (success_count + 1)%nat
     else logger ERROR (py "❌ Échec de la génération du chant") ;;
          ret success_count) ;;
  logger INFO ([LF] ++ str_repeat (py "=") 50) ;;
  if bool_decide (success_count = total_steps) then
    logger INFO (py "🎉 RITUEL COMPLET AVEC SUCCÈS") ;;
    logger INFO (py "Luxcordia.EXE - Par la Fracture vient la Vue") ;;
    ret true
  else
    logger WARNING (py "⚠️ RITUEL PARTIEL: " ++ str_of_nat success_count ++ py "/"
                       ++ str_of_nat total_steps ++ py " étapes réussies") ;;
    ret false.

End Program.

(** * Vocabulary of the properties *)

(** One of the code points of "0" to "9". *)
Definition ascii_digit (c : N) : Prop := 48 ≤ c ≤ 57.

(** A string holds no line end. *)
Definition no_break (s : pystr) : Prop := Forall (λ c, c ≠ LF ∧ c ≠ CR) s.

(** A string is not empty and its last code point is not whitespace. *)
Definition ends_clean (s : pystr) : bool :=
  match last s with
  | Some c => negb (py_isspace c)
  | None => false
  end.

(** A string is not empty and its first code point is not whitespace. *)
Definition starts_clean (s : pystr) : bool :=
  match s with
  | c :: _ => negb (py_isspace c)
  | [] => false
  end.

(** An entry that a report gives back as it was written: it holds no line
    end, it is not empty, it does not end in whitespace, and the UTF-8 codec
    can write it. *)
Definition plain_entry (s : pystr) : Prop :=
  no_break s ∧ ends_clean s = true ∧ encodable s = true.

(** The numbered lines of a report, the first one numbered [i]. *)
Fixpoint numbered_lines (i : nat) (L : list pystr) : pystr :=
  match L with
  | [] => []
  | s :: rest => (format_2d i ++ py ". " ++ s ++ [LF]) ++ numbered_lines (S i) rest
  end.

(** What [_write_symbols_file] and [_write_mantras_file] leave in the file,
    for the title line and the footer wording of each. *)
Definition report_text (title wording : pystr) (t : datetime) (L : list pystr) : pystr :=
  title ++ LF ::
  (str_repeat (py "=") 50 ++ LF :: LF ::
  ((py "Extraction générée le: " ++ strftime t) ++ LF :: LF ::
  (numbered_lines 1 L ++ LF ::
  ((py "--- Total: " ++ str_of_nat (length L) ++ wording) ++ [LF])))).

(** The file at [p] holds the text [t] in [w], and the access rights are
    those of [w0]. *)
Definition file_holds (p : string) (t : pystr) (w0 w : world) : Prop :=
  files w !! p = Some (Text t) ∧ unreadable w = unreadable w0 ∧ unwritable w = unwritable w0.

(** The two report writers differ in their title line, in the wording of
    their footer and in their log messages only. *)
Definition write_report `{PyRuntime} (title wording done_msg fail_msg : pystr)
    (entries : list json) (output_file : string) : M bool :=
  try_except
    (open_w output_file ;;
     f_write output_file (title ++ [LF]) ;;
     f_write output_file (str_repeat (py "=") 50 ++ [LF; LF]) ;;
     t <- now ;;
     f_write output_file (py "Extraction générée le: " ++ strftime t ++ [LF; LF]) ;;
     for_each (enumerate1 entries)
       (λ '(i, entry),
          f_write output_file (format_2d i ++ py ". " ++ format_value entry ++ [LF])) ;;
     f_write output_file
       ([LF] ++ py "--- Total: " ++ str_of_nat (length entries) ++ wording ++ [LF]) ;;
     logger INFO (done_msg ++ py output_file) ;;
     ret true)
    (λ e, logger ERROR (fail_msg ++ exn_name e) ;; ret false).

(** A runtime whose [str.isdigit] knows the ASCII digits only. *)
Definition sample_runtime : PyRuntime :=
  {| isdigit_nonascii := λ _, false; container_str := λ _, py "[...]" |}.

(** A world with no configuration and an empty outputs directory. *)
Definition blank_world : world :=
  World ConfigAbsent ∅ ∅ ∅ ∅ (λ n, n) 0%nat (λ _, DateTime 2025 1 2 3 4 5) 0%nat [].

(** The world [w] with [c] at the configuration path. *)
Definition set_config (c : config_state) (w : world) : world :=
  World c (files w) (unreadable w) (unwritable w) (heap w)
        (rand w) (rand_pos w) (clock w) (clock_pos w) (log w).

(** The value a computation returns, if it returns. *)
Definition returned {A} (r : result A) : option A :=
  match r with
  | Ret a _ => Some a
  | Exc _ _ => None
  end.

(** The exception a computation raises, if it raises. *)
Definition raised {A} (r : result A) : option exn :=
  match r with
  | Ret _ _ => None
  | Exc e _ => Some e
  end.

(** The world a computation leaves. *)
Definition final {A} (r : result A) : world :=
  match r with
  | Ret _ w => w
  | Exc _ w => w
  end.


(** [w'] is [w] with more lines in the log, and nothing else changed. *)
Definition logged (w w' : world) : Prop :=
  ∃ entries, w' = set_log (log w ++ entries) w.


(** Deduplication that preserves first-seen order: a value stays where it
    occurs first and every later occurrence of it is dropped. *)
Fixpoint keep_first (l : list pystr) : list pystr :=
  match l with
  | [] => []
  | x :: rest => x :: filter (λ y, y ≠ x) (keep_first rest)
  end.

(** The value of a field of a JSON object, or [dflt] when the key is missing. *)
Definition field (d : list (pystr * json)) (key : string) (dflt : json) : json :=
  default dflt (assoc (py key) d).

(** The symbolic section of the spec's example: symbols a, b, a, c and no
    aesthetic techniques. *)
Definition sample_symbolic : list (pystr * json) :=
  [(py "symbols", JList [JStr (py "a"); JStr (py "b"); JStr (py "a"); JStr (py "c")])].

(** The narrative section of the spec's example: the mantra x twice, an
    empty archetype and no technique. *)
Definition sample_narrative : list (pystr * json) :=
  [(py "mantras", JList [JStr (py "x"); JStr (py "x")]);
   (py "archetype", JStr (py ""));
   (py "techniques", JList [])].

(** A valid JSON document whose "symbols" field is a number. *)
Definition misshapen_document : json :=
  JDict [(py "symbolic_analysis", JDict [(py "symbols", JInt 5)])].

(** The list object [x] holds a permutation of [l] in [w'], and no other
    list object differs between [w] and [w']. *)
Definition permuted (x : positive) (l : list pystr) (w w' : world) : Prop :=
  (∃ l', heap w' !! x = Some l' ∧ l' ≡ₚ l)
  ∧ ∀ r, r ≠ x → heap w' !! r = heap w !! r.

(** The glyph at position [k] of the vocabulary. *)
Definition glyph_at (k : nat) : pystr := default [] (glitch_symbols !! k).

(** The four decoration rules, by the position [i] of the line. *)
Definition decorated (i : nat) (line out : pystr) : Prop :=
  ((i `mod` 4 = 0)%nat →
     out = glyph_at (i `mod` 8) ++ [SP] ++ line ++ [SP] ++ glyph_at (i `mod` 8))
  ∧ ((i `mod` 4 = 1)%nat →
     out = mjoin (map (λ j, glyph_at (j `mod` 8)) (seq 0 (i `mod` 3 + 1))) ++ [SP] ++ line)
  ∧ ((i `mod` 4 = 2)%nat →
     out = line ++ [SP] ++ glyph_at (Z.to_nat ((- Z.of_nat i) `mod` 8)))
  ∧ ((i `mod` 4 = 3)%nat →
     out = let words := split_ws line in
           let mid := (length words / 2)%nat in
           if bool_decide (2 < length words)%nat
           then join [SP] (take mid words ++ glyph_at (i `mod` 8) :: drop mid words)
           else line).

(** A world whose heap holds three list objects: two lists of entries and
    their concatenation. *)
Definition sample_heap_world : world :=
  set_heap {[ 1%positive := [py "alpha"; py "beta"];
              2%positive := [py "one two three"; py "om"; py "a b c d"];
              3%positive := [py "alpha"; py "beta"; py "one two three"; py "om"; py "a b c d"] ]}
           blank_world.

(** On the worlds that satisfy [P], the stage returns a boolean (it does
    not raise) and leaves a world that satisfies [P]. *)
Definition stage_returns (P : world → Prop) (stage : M bool) : Prop :=
  ∀ w, P w → ∃ ok w', stage w = Ret ok w' ∧ P w'.

(** No configuration and an empty outputs directory: every stage of the
    real orchestrator then fails, and every stage is run. *)
Definition nothing_to_do (w : world) : Prop :=
  config w = ConfigAbsent ∧ files w = ∅.

(** A world without configuration in which reports of an earlier run are
    left: the two extraction stages fail, and the chant stage still runs,
    succeeds and writes its file, while the ritual as a whole fails. *)
Definition stale_world : world :=
  set_files {[ get_output_path "symboles_extraits.txt" := Text (py " 1. Φ" ++ [LF]);
               get_output_path "mantras_extraits.txt" := Text (py " 1. om" ++ [LF]) ]}
            blank_world.

(** [w'] has the configuration and the access rights of [w], and the files
    of [w] at every path outside [ps]. *)
Definition same_outside (ps : gset string) (w w' : world) : Prop :=
  config w' = config w
  ∧ unreadable w' = unreadable w
  ∧ unwritable w' = unwritable w
  ∧ ∀ q, q ∉ ps → files w' !! q = files w !! q.

(** Whether it returns or raises, the computation leaves every file outside
    [ps] as it found it. *)
Definition touches_only {A} (ps : gset string) (m : M A) : Prop :=
  ∀ w, same_outside ps w (final (m w)).


(** What a report writer has put in the file when it stops before the
    footer: the title, the separator, the time stamp and the numbered
    [lines] written so far. *)
Definition report_start (title : pystr) (t : datetime) (lines : list pystr) : pystr :=
  title ++ LF ::
  (str_repeat (py "=") 50 ++ LF :: LF ::
  ((py "Extraction générée le: " ++ strftime t) ++ LF :: LF ::
  numbered_lines 1 lines)).

(** The UTF-8 codec can write the text that [format] gives for [v]. *)
Definition writable_value `{PyRuntime} (v : json) : Prop :=
  encodable (format_value v) = true.

(** The paths of the three output files. *)
Definition symbols_path : string := get_output_path "symboles_extraits.txt".
Definition mantras_path : string := get_output_path "mantras_extraits.txt".
Definition chant_path : string := get_output_path "chant_glitch_fusion.txt".

(** What [_write_chant_file] leaves in the file. *)
Definition chant_text (t : datetime) (content : list pystr) : pystr :=
  py "🔊 CHANT GLITCHÉ SACRÉ – FRACTURA.Δ02" ++ LF ::
  (str_repeat (py "=") 60 ++ LF ::
  (py "Par la Fracture vient la Vue" ++ LF ::
  (py "Lux contre Spectaculum" ++ LF ::
  (str_repeat (py "=") 60 ++ LF :: LF ::
  ((py "Généré le: " ++ strftime t) ++ LF ::
  ((py "Éléments fusionnés: " ++ str_of_nat (length content)) ++ LF :: LF ::
  (py "--- INVOCATION ---" ++ LF :: LF ::
  (mjoin (map (λ line, line ++ [LF]) content) ++ LF ::
  (py "--- FIN DE L'INVOCATION ---" ++ LF ::
  (py "FRACTURA.Δ02 // Luxcordia.EXE" ++ [LF])))))))))).


(** The lines that [_gather_all_mantras] makes of a narrative section. *)
Definition mantra_lines (mantras : list pystr) (archetype : pystr)
    (techniques : list pystr) : list pystr :=
  mantras
  ++ (if bool_decide (archetype = []) then [] else [py "[ARCHETYPE] " ++ archetype])
  ++ map (λ t, py "[TECHNIQUE] " ++ t) techniques.

(** A world in which the configuration holds [doc] and nothing else exists. *)
Definition world_with (doc : json) : world := set_config (ConfigLoaded doc) blank_world.

(** The document of the spec's end-to-end scenario, with a technique and an
    archetype added. *)
Definition sample_document : json :=
  JDict [(py "symbolic_analysis",
          JDict [(py "symbols", JList [JStr (py "Φ"); JStr (py "Ψ"); JStr (py "Φ")]);
                 (py "aesthetic_techniques", JList [JStr (py "glitch")])]);
         (py "narrative_structures",
          JDict [(py "mantras", JList [JStr (py "om"); JStr (py "om")]);
                 (py "archetype", JStr (py "seer"));
                 (py "techniques", JList [JStr (py "loop")])])].

(** The sections of [sample_document]. *)
Definition sample_document_symbolic : list (pystr * json) :=
  [(py "symbols", JList [JStr (py "Φ"); JStr (py "Ψ"); JStr (py "Φ")]);
   (py "aesthetic_techniques", JList [JStr (py "glitch")])].

Definition sample_document_narrative : list (pystr * json) :=
  [(py "mantras", JList [JStr (py "om"); JStr (py "om")]);
   (py "archetype", JStr (py "seer"));
   (py "techniques", JList [JStr (py "loop")])].

Definition sample_document_entries : list (pystr * json) :=
  [(py "symbolic_analysis", JDict sample_document_symbolic);
   (py "narrative_structures", JDict sample_document_narrative)].

(** What [_load_extracted_content] returns in the world [w]. *)
Definition readable_content `{PyRuntime} (w : world) (filename : string) : list pystr :=
  match files w !! get_output_path filename with
  | Some (Text t) =>
      if bool_decide (get_output_path filename ∈ unreadable w) then []
      else content_loop (readlines t)
  | _ => []
  end.

(** [w'] differs from [w] at most in the list objects, in the position of
    the random source and in the log. *)
Definition steady (w w' : world) : Prop :=
  config w' = config w ∧ files w' = files w
  ∧ unreadable w' = unreadable w ∧ unwritable w' = unwritable w
  ∧ clock w' = clock w ∧ clock_pos w' = clock_pos w.

(** The computation changes neither the files nor the clock. *)
Definition quiet {A} (m : M A) : Prop := ∀ w, steady w (final (m w)).

(** The text of the chant file before the invocation lines, as the
    successive [write] calls build it. *)
Definition chant_head (t : datetime) (count : nat) : pystr :=
  (((((((([] ++ py "🔊 CHANT GLITCHÉ SACRÉ – FRACTURA.Δ02" ++ [LF])
         ++ str_repeat (py "=") 60 ++ [LF])
        ++ py "Par la Fracture vient la Vue" ++ [LF])
       ++ py "Lux contre Spectaculum" ++ [LF])
      ++ str_repeat (py "=") 60 ++ [LF; LF])
     ++ py "Généré le: " ++ strftime t ++ [LF])
    ++ py "Éléments fusionnés: " ++ str_of_nat count ++ [LF; LF])
   ++ py "--- INVOCATION ---" ++ [LF; LF]).

(** The invocation lines of the chant file. *)
Definition chant_lines (content : list pystr) : pystr :=
  mjoin (map (λ line, line ++ [LF]) content).

(** The file at [p] holds a report of at least one entry under [title]. *)
Definition holds_report (title wording : pystr) (p : string) (w : world) : Prop :=
  ∃ t lines, lines ≠ []
    ∧ files w !! p = Some (Text (report_text title wording t lines)).

(** The world that the whole ritual leaves when it is run on
    [sample_document] with nothing else in place. *)
Definition sample_ritual_world : world :=
  final (run_complete_ritual (@FracturaOrchestrator sample_runtime)
           (world_with sample_document)).



(** No two values of [l] are equal in Python's sense ([==]). *)
Fixpoint distinct_values (l : list json) : bool :=
  match l with
  | [] => true
  | x :: rest => negb (existsb (py_eq x) rest) && distinct_values rest
  end.

(** A document with numbers, booleans, [null] and strings among its
    symbols: [1], [true] and the second [1] are one value for Python. *)
Definition mixed_symbolic : list (pystr * json) :=
  [(py "symbols", JList [JInt 1; JBool true; JStr (py "1"); JNull; JInt 1]);
   (py "aesthetic_techniques", JList [JBool false; JInt 0])].

(** * Properties *)

(** ** Code points and strings *)

(** Rewrites every comparison of code points that the bounds at hand decide. *)
Ltac decide_comparisons :=
  repeat match goal with
  | |- context [?a <=? ?b] =>
      first [ rewrite (proj2 (N.leb_le a b)) by lia
            | rewrite (proj2 (N.leb_gt a b)) by lia ]
  | |- context [?a <? ?b] =>
      first [ rewrite (proj2 (N.ltb_lt a b)) by lia
            | rewrite (proj2 (N.ltb_ge a b)) by lia ]
  | |- context [?a =? ?b] =>
      first [ rewrite (proj2 (N.eqb_neq a b)) by lia
            | rewrite (proj2 (N.eqb_eq a b)) by lia ]
  end.

Lemma ascii_digit_not_space c : ascii_digit c → py_isspace c = false.
Proof.
  unfold ascii_digit, py_isspace. intros Hc. decide_comparisons. reflexivity.
Qed.

Lemma uint_digits_ascii d : Forall ascii_digit (uint_digits d).
Proof.
  induction d; simpl; constructor; try assumption; unfold ascii_digit; lia.
Qed.

Lemma revapp_not_nil d acc : acc ≠ Decimal.Nil → Decimal.revapp d acc ≠ Decimal.Nil.
Proof.
  revert acc. induction d; intros acc Hacc; simpl; try assumption; apply IHd; discriminate.
Qed.

Lemma to_little_uint_not_nil n acc :
  acc ≠ Decimal.Nil → Nat.to_little_uint n acc ≠ Decimal.Nil.
Proof.
  revert acc. induction n as [|n IH]; intros acc Hacc; simpl; [assumption|].
  apply IH. destruct acc; simpl; discriminate.
Qed.

Lemma to_uint_not_nil n : Nat.to_uint n ≠ Decimal.Nil.
Proof.
  unfold Nat.to_uint, Decimal.rev.
  pose proof (to_little_uint_not_nil n Decimal.zero) as Hn.
  destruct (Nat.to_little_uint n Decimal.zero); simpl;
    try (apply revapp_not_nil; discriminate).
  exfalso. apply Hn; [discriminate | reflexivity].
Qed.

Lemma str_of_nat_ascii n : Forall ascii_digit (str_of_nat n).
Proof. apply uint_digits_ascii. Qed.

Lemma str_of_nat_not_empty n : str_of_nat n ≠ [].
Proof.
  unfold str_of_nat. pose proof (to_uint_not_nil n) as Hn.
  destruct (Nat.to_uint n); simpl; congruence.
Qed.

Lemma lstrip_keeps c s : py_isspace c = false → lstrip (c :: s) = c :: s.
Proof. intros Hc. simpl. by rewrite Hc. Qed.

Lemma lstrip_padding k s : lstrip (replicate k SP ++ s) = lstrip s.
Proof. induction k; simpl; [reflexivity | assumption]. Qed.

Lemma rstrip_drops s c : py_isspace c = true → rstrip (s ++ [c]) = rstrip s.
Proof. intros Hc. unfold rstrip. rewrite rev_unit. simpl. by rewrite Hc. Qed.

Lemma rstrip_keeps s c : py_isspace c = false → rstrip (s ++ [c]) = s ++ [c].
Proof.
  intros Hc. unfold rstrip. rewrite rev_unit. simpl. rewrite Hc. simpl.
  by rewrite rev_involutive.
Qed.

Lemma ends_clean_snoc s :
  ends_clean s = true → ∃ s' c, s = s' ++ [c] ∧ py_isspace c = false.
Proof.
  unfold ends_clean. destruct (last s) as [c|] eqn:Hl; [|discriminate].
  intros Hc. apply last_Some in Hl as [s' ->]. exists s', c. split; [done|].
  by destruct (py_isspace c).
Qed.

Lemma ends_clean_app a b : ends_clean b = true → ends_clean (a ++ b) = true.
Proof.
  intros Hb. destruct (ends_clean_snoc b Hb) as (b' & c & -> & Hc).
  unfold ends_clean. rewrite app_assoc, last_snoc. by rewrite Hc.
Qed.

Lemma rstrip_clean s : ends_clean s = true → rstrip s = s.
Proof.
  intros Hs. destruct (ends_clean_snoc s Hs) as (s' & c & -> & Hc).
  by apply rstrip_keeps.
Qed.

(** A written line is read back, once stripped, as its body: padding in
    front and the line end behind are dropped. *)
Lemma strip_line k c body :
  py_isspace c = false → ends_clean (c :: body) = true →
  strip (replicate k SP ++ (c :: body) ++ [LF]) = c :: body.
Proof.
  intros Hc Hclean. unfold strip.
  rewrite lstrip_padding. change ((c :: body) ++ [LF]) with (c :: (body ++ [LF])).
  rewrite (lstrip_keeps c _ Hc).
  change (c :: (body ++ [LF])) with ((c :: body) ++ [LF]).
  rewrite rstrip_drops by reflexivity. by apply rstrip_clean.
Qed.

Lemma startswith_app p s : startswith p (p ++ s) = true.
Proof. induction p; simpl; [done|]. by rewrite N.eqb_refl. Qed.

Lemma startswith_head_ne a p c s : a ≠ c → startswith (a :: p) (c :: s) = false.
Proof. intros Hne. simpl. apply N.eqb_neq in Hne. by rewrite Hne. Qed.

Lemma cut_first_found sep s a b :
  cut_first sep s = Some (a, b) → s = a ++ sep ++ b ∧ str_in sep s = true.
Proof.
  revert a b. induction s as [|c s IH]; intros a b.
  - simpl. destruct (startswith sep []) eqn:Hs; [|discriminate].
    destruct sep; [|discriminate]. intros [= <- <-]. done.
  - cbn [cut_first str_in]. destruct (startswith sep (c :: s)) eqn:Hs.
    + intros [= <- <-]. split; [|done].
      clear IH. revert Hs. generalize (c :: s). clear.
      induction sep as [|x sep IH]; intros l Hs; [done|].
      destruct l as [|y l]; [discriminate|]. simpl in Hs.
      apply andb_prop in Hs as [Hxy Hs]. apply N.eqb_eq in Hxy as ->.
      simpl. f_equal. by apply IH.
    + destruct (cut_first sep s) as [[a' b']|] eqn:Hcut; [|discriminate].
      intros [= <- <-]. destruct (IH a' b' eq_refl) as [-> Hin].
      split; [done|]. by rewrite Hin.
Qed.


(** The cut of a numbered line falls right after its digits. *)
Lemma cut_first_digits d s :
  Forall ascii_digit d → cut_first [46; 32] (d ++ [46; 32] ++ s) = Some (d, s).
Proof.
  induction 1 as [|c d Hc _ IH]; [reflexivity|].
  change ((c :: d) ++ [46; 32] ++ s) with (c :: (d ++ [46; 32] ++ s)).
  cbn [cut_first]. rewrite startswith_head_ne by (unfold ascii_digit in Hc; lia).
  by rewrite IH.
Qed.

Lemma starts_clean_app a b : starts_clean a = true → starts_clean (a ++ b) = true.
Proof. by destruct a. Qed.

Lemma ends_clean_digits d : Forall ascii_digit d → d ≠ [] → ends_clean d = true.
Proof.
  intros Hd Hne. unfold ends_clean. destruct (last d) as [c|] eqn:Hl.
  - rewrite ascii_digit_not_space; [done|].
    apply last_Some in Hl as [d' ->]. apply Forall_app in Hd as [_ Hc].
    by inversion Hc.
  - by apply last_None in Hl.
Qed.

Lemma starts_clean_digits d : Forall ascii_digit d → d ≠ [] → starts_clean d = true.
Proof.
  intros Hd Hne. destruct d as [|c d]; [done|]. simpl.
  inversion Hd; subst. by rewrite ascii_digit_not_space.
Qed.

Lemma strip_body k body :
  starts_clean body = true → ends_clean body = true →
  strip (replicate k SP ++ body ++ [LF]) = body.
Proof.
  destruct body as [|c body]; [done|]. simpl starts_clean. intros Hc He.
  apply strip_line; [|done]. by destruct (py_isspace c).
Qed.

Lemma no_break_app a b : no_break a → no_break b → no_break (a ++ b).
Proof. unfold no_break. intros. by apply Forall_app. Qed.

Lemma no_break_digits d : Forall ascii_digit d → no_break d.
Proof.
  unfold no_break. intros Hd. eapply Forall_impl; [exact Hd|].
  unfold ascii_digit, LF, CR. intros c Hc. lia.
Qed.

Lemma no_break_replicate k c : c ≠ LF → c ≠ CR → no_break (replicate k c).
Proof. intros. unfold no_break. induction k; simpl; constructor; auto. Qed.

Lemma readlines_aux_line cur s rest :
  no_break s →
  readlines_aux cur (s ++ LF :: rest) = (rev cur ++ s ++ [LF]) :: readlines_aux [] rest.
Proof.
  intros Hs. revert cur. induction Hs as [|c s [Hlf Hcr] _ IH]; intros cur.
  - reflexivity.
  - change ((c :: s) ++ LF :: rest) with (c :: (s ++ LF :: rest)).
    cbn [readlines_aux].
    apply N.eqb_neq in Hlf, Hcr. rewrite Hlf, Hcr, IH. simpl.
    by rewrite <- app_assoc.
Qed.

Lemma readlines_line s rest :
  no_break s → readlines (s ++ LF :: rest) = (s ++ [LF]) :: readlines rest.
Proof. intros Hs. unfold readlines. by rewrite readlines_aux_line. Qed.

Section Reading.
Context `{PyRuntime}.

Lemma str_isdigit_digits d : Forall ascii_digit d → d ≠ [] → str_isdigit d = true.
Proof.
  intros Hd Hne. unfold str_isdigit. rewrite bool_decide_false by done. simpl.
  apply forallb_forall. intros c Hc. rewrite Forall_forall in Hd.
  apply list_elem_of_In, Hd in Hc. unfold char_isdigit, ascii_digit in *.
  decide_comparisons. reflexivity.
Qed.

Lemma strip_digits d : Forall ascii_digit d → d ≠ [] → strip d = d.
Proof.
  intros Hd Hne. unfold strip. destruct d as [|c d]; [done|].
  rewrite lstrip_keeps by (inversion Hd; subst; by apply ascii_digit_not_space).
  apply rstrip_clean. by apply ends_clean_digits.
Qed.

(** A line that is blank, or that starts with one of the marks, is skipped. *)
Lemma content_loop_skip body rest :
  no_break body → starts_clean body = true → ends_clean body = true →
  is_content body = false →
  content_loop (readlines (body ++ LF :: rest)) = content_loop (readlines rest).
Proof.
  intros Hnb Hs He Hc. rewrite readlines_line by done. cbn [content_loop].
  pose proof (strip_body 0 body Hs He) as Hb.
  change (replicate 0 SP ++ body ++ [LF]) with (body ++ [LF]) in Hb.
  by rewrite Hb, Hc.
Qed.

Lemma content_loop_blank rest :
  content_loop (readlines (LF :: rest)) = content_loop (readlines rest).
Proof. reflexivity. Qed.

(** A numbered line gives back the entry that was written on it. *)
Lemma unnumbered_entry d s :
  Forall ascii_digit d → d ≠ [] → unnumbered (d ++ [46; 32] ++ s) = s.
Proof.
  intros Hd Hne. unfold unnumbered, split1.
  change (py ". ") with [46; 32].
  pose proof (cut_first_digits d s Hd) as Hcut.
  destruct (cut_first_found _ _ _ _ Hcut) as [_ ->]. rewrite Hcut.
  unfold item. simpl. rewrite strip_digits, str_isdigit_digits; done.
Qed.

Lemma is_content_digits d s :
  Forall ascii_digit d → d ≠ [] → is_content (d ++ s) = true.
Proof.
  intros Hd Hne. destruct d as [|c d]; [done|]. inversion Hd as [|? ? Hc]; subst.
  unfold is_content. simpl app. rewrite bool_decide_false by done.
  unfold ascii_digit in Hc.
  repeat match goal with
  | |- context [startswith (py ?m) _] =>
      let v := eval vm_compute in (py m) in
      change (py m) with v; rewrite startswith_head_ne by lia
  end.
  reflexivity.
Qed.

Lemma content_loop_entry k d s rest :
  Forall ascii_digit d → d ≠ [] → no_break s → ends_clean s = true →
  content_loop (readlines (replicate k SP ++ d ++ py ". " ++ s ++ LF :: rest))
  = s :: content_loop (readlines rest).
Proof.
  intros Hd Hne Hs He. change (py ". ") with [46; 32].
  replace (replicate k SP ++ d ++ [46; 32] ++ s ++ LF :: rest)
    with ((replicate k SP ++ d ++ [46; 32] ++ s) ++ LF :: rest)
    by (by rewrite <- !app_assoc).
  rewrite readlines_line.
  2:{ apply no_break_app; [by apply no_break_replicate|].
      apply no_break_app; [by apply no_break_digits|].
      apply no_break_app; [|done]. repeat constructor; done. }
  cbn [content_loop].
  replace ((replicate k SP ++ d ++ [46; 32] ++ s) ++ [LF])
    with (replicate k SP ++ (d ++ [46; 32] ++ s) ++ [LF])
    by (by rewrite <- !app_assoc).
  rewrite strip_body.
  - rewrite is_content_digits, unnumbered_entry; done.
  - apply starts_clean_app. by apply starts_clean_digits.
  - rewrite !app_assoc. by apply ends_clean_app.
Qed.

End Reading.

(** ** The text of a report *)

Lemma zero_pad_ascii width n : Forall ascii_digit (zero_pad width n).
Proof.
  unfold zero_pad. apply Forall_app. split; [|apply str_of_nat_ascii].
  apply Forall_replicate. unfold ascii_digit. lia.
Qed.

Lemma zero_pad_not_empty width n : zero_pad width n ≠ [].
Proof.
  unfold zero_pad. pose proof (str_of_nat_not_empty n).
  destruct (str_of_nat n); [done|]. by destruct (replicate _ _).
Qed.

Lemma no_break_literal s : forallb (λ c, negb (c =? LF) && negb (c =? CR)) s = true → no_break s.
Proof.
  intros Hs. unfold no_break. apply Forall_forall. intros c Hc.
  rewrite forallb_forall in Hs. apply list_elem_of_In, Hs in Hc.
  apply andb_prop in Hc as [H1 H2].
  apply negb_true_iff in H1, H2. split; by apply N.eqb_neq.
Qed.

Ltac no_break_closed := apply no_break_literal; vm_compute; reflexivity.

Lemma no_break_strftime t : no_break (strftime t).
Proof.
  unfold strftime.
  repeat (apply no_break_app;
          [first [apply no_break_digits, zero_pad_ascii | no_break_closed]|]).
  apply no_break_digits, zero_pad_ascii.
Qed.

Lemma ends_clean_strftime t : ends_clean (strftime t) = true.
Proof.
  unfold strftime. rewrite !app_assoc.
  apply ends_clean_app, ends_clean_digits; [apply zero_pad_ascii | apply zero_pad_not_empty].
Qed.

Lemma encodable_app a b : encodable (a ++ b) = encodable a && encodable b.
Proof. apply forallb_app. Qed.

Lemma encodable_digits d : Forall ascii_digit d → encodable d = true.
Proof.
  intros Hd. apply forallb_forall. intros c Hc. rewrite Forall_forall in Hd.
  apply list_elem_of_In, Hd in Hc. unfold encodable_char, ascii_digit in *.
  decide_comparisons. reflexivity.
Qed.

Lemma encodable_strftime t : encodable (strftime t) = true.
Proof.
  unfold strftime. rewrite !encodable_app.
  repeat (rewrite (encodable_digits (zero_pad _ _)) by apply zero_pad_ascii).
  reflexivity.
Qed.

Lemma encodable_format_2d n : encodable (format_2d n) = true.
Proof.
  unfold format_2d. cbn zeta.
  rewrite encodable_app, (encodable_digits (str_of_nat n)) by apply str_of_nat_ascii.
  rewrite andb_true_r. apply forallb_forall. intros c Hc.
  apply list_elem_of_In, elem_of_replicate in Hc as [-> _]. reflexivity.
Qed.

Section ReadingReports.
Context `{PyRuntime}.

Lemma content_numbered i L rest :
  Forall plain_entry L →
  content_loop (readlines (numbered_lines i L ++ rest)) = L ++ content_loop (readlines rest).
Proof.
  intros HL. revert i. induction HL as [|s L [Hnb [He _]] _ IH]; intros i; [done|].
  cbn [numbered_lines]. unfold format_2d. cbn zeta.
  rewrite <- !app_assoc. simpl ([LF] ++ _).
  rewrite content_loop_entry, IH;
    [done | apply str_of_nat_ascii | apply str_of_nat_not_empty | done | done].
Qed.

Lemma is_content_stamp x : is_content (py "Extraction générée" ++ x) = false.
Proof.
  unfold is_content. rewrite startswith_app. cbn [negb]. by rewrite ?andb_false_r.
Qed.

Lemma is_content_rule x : is_content (py "---" ++ x) = false.
Proof.
  unfold is_content. rewrite startswith_app. cbn [negb]. by rewrite ?andb_false_r.
Qed.

(** Reading a report gives back its entries. *)
Lemma read_report title wording t L :
  no_break title → starts_clean title = true → ends_clean title = true →
  is_content title = false →
  no_break wording → ends_clean wording = true →
  Forall plain_entry L →
  content_loop (readlines (report_text title wording t L)) = L.
Proof.
  intros Ht1 Ht2 Ht3 Ht4 Hw1 Hw2 HL. unfold report_text.
  rewrite content_loop_skip by done.
  rewrite content_loop_skip; [|no_break_closed|done..].
  rewrite content_loop_blank.
  rewrite content_loop_skip.
  - rewrite content_loop_blank, content_numbered by done.
    rewrite content_loop_blank.
    rewrite content_loop_skip; [by rewrite app_nil_r| | | |].
    + apply no_break_app; [no_break_closed|].
      apply no_break_app; [apply no_break_digits, str_of_nat_ascii|done].
    + by apply starts_clean_app.
    + rewrite app_assoc. by apply ends_clean_app.
    + change (py "--- Total: ") with (py "---" ++ py " Total: ").
      rewrite <- app_assoc. apply is_content_rule.
  - apply no_break_app; [no_break_closed | apply no_break_strftime].
  - by apply starts_clean_app.
  - apply ends_clean_app, ends_clean_strftime.
  - change (py "Extraction générée le: ") with (py "Extraction générée" ++ py " le: ").
    rewrite <- app_assoc. apply is_content_stamp.
Qed.

End ReadingReports.

(** ** Running computations *)

Lemma bind_ret {A B} {m : M A} (k : A → M B) {w a w'} :
  m w = Ret a w' → bind m k w = k a w'.
Proof. unfold bind. by intros ->. Qed.

Lemma bind_exc {A B} {m : M A} (k : A → M B) {w e w'} :
  m w = Exc e w' → bind m k w = Exc e w'.
Proof. unfold bind. by intros ->. Qed.

Lemma try_ret {A} {body : M A} (handler : exn → M A) {w a w'} :
  body w = Ret a w' → try_except body handler w = Ret a w'.
Proof. unfold try_except. by intros ->. Qed.

Lemma try_exc {A} {body : M A} (handler : exn → M A) {w e w'} :
  body w = Exc e w' → try_except body handler w = handler e w'.
Proof. unfold try_except. by intros ->. Qed.

Lemma open_w_holds p w :
  p ∉ unwritable w → ∃ w', open_w p w = Ret tt w' ∧ file_holds p [] w w'.
Proof.
  intros Hp. unfold open_w. rewrite bool_decide_false by done.
  eexists. split; [reflexivity|]. repeat split. simpl. apply lookup_insert_eq.
Qed.

Lemma f_write_holds p t chunk w0 w :
  file_holds p t w0 w → encodable chunk = true →
  ∃ w', f_write p chunk w = Ret tt w' ∧ file_holds p (t ++ chunk) w0 w'.
Proof.
  intros (Hf & Hr & Hw) He. unfold f_write. rewrite He, Hf.
  eexists. split; [reflexivity|]. repeat split; [|done..]. simpl. apply lookup_insert_eq.
Qed.


Lemma logger_holds lv msg p t w0 w :
  file_holds p t w0 w → ∃ w', logger lv msg w = Ret tt w' ∧ file_holds p t w0 w'.
Proof. intros Hh. eexists. split; [reflexivity|]. exact Hh. Qed.

(** One step of a computation whose outcome [H] gives. *)
Ltac run_step H :=
  let w := fresh "w" in
  let E := fresh "E" in
  destruct H as (w & E & ?); rewrite (bind_ret _ E); cbn beta; clear E.

Section Writing.
Context `{PyRuntime}.


Lemma _write_symbols_file_unfold :
  _write_symbols_file
  = write_report (py "🔮 Symboles analysés dans FRACTURA.Δ02") (py " symboles ---")
      (py "✅ Symbols written successfully to: ") (py "❌ Error writing symbols file: ").
Proof. reflexivity. Qed.

Lemma _write_mantras_file_unfold :
  _write_mantras_file
  = write_report (py "🗝️ Mantras extraits de FRACTURA.Δ02") (py " éléments narratifs ---")
      (py "✅ Mantras written successfully to: ") (py "❌ Error writing mantras file: ").
Proof. reflexivity. Qed.


(** Reading the file at [get_output_path filename] when it can be read. *)
Lemma load_readable filename t w :
  files w !! get_output_path filename = Some (Text t) →
  get_output_path filename ∉ unreadable w →
  ∃ w', _load_extracted_content filename w = Ret (content_loop (readlines t)) w'.
Proof.
  intros Hf Hr. unfold _load_extracted_content, bind, path_exists.
  rewrite Hf, bool_decide_true by eauto. cbn [negb].
  unfold try_except, bind, read_lines. rewrite Hf, bool_decide_false by done.
  eexists. reflexivity.
Qed.

End Writing.

Ltac plain_entries :=
  repeat (apply Forall_cons; split;
          [split; [no_break_closed | split; vm_compute; reflexivity]|]);
  apply Forall_nil_2.

(** ** Round trip of a report (C1) *)




(** ** What the reader returns (C8, C10) *)

Lemma logged_refl w : logged w w.
Proof. exists []. destruct w. unfold set_log. simpl. by rewrite app_nil_r. Qed.

Lemma logged_trans w1 w2 w3 : logged w1 w2 → logged w2 w3 → logged w1 w3.
Proof.
  intros [e1 ->] [e2 ->]. exists (e1 ++ e2). unfold set_log. simpl.
  by rewrite app_assoc.
Qed.

Lemma logged_logger lv msg w : logged w (set_log (log w ++ [(lv, msg)]) w).
Proof. by eexists. Qed.

(** The three ways [_load_extracted_content] ends; it never raises. *)
Lemma load_cases `{PyRuntime} filename w :
  ∃ w', logged w w' ∧
    match files w !! get_output_path filename with
    | Some (Text t) =>
        if bool_decide (get_output_path filename ∈ unreadable w)
        then _load_extracted_content filename w = Ret [] w'
        else _load_extracted_content filename w = Ret (content_loop (readlines t)) w'
    | _ => _load_extracted_content filename w = Ret [] w'
    end.
Proof.
  unfold _load_extracted_content, bind, path_exists, try_except, read_lines.
  cbn beta.
  destruct (files w !! get_output_path filename) as [[t|]|] eqn:Hf.
  - rewrite (bool_decide_true (is_Some (Some _))) by eauto. cbn [negb].
    cbn beta iota. rewrite Hf.
    destruct (bool_decide (get_output_path filename ∈ unreadable w)).
    + eexists. split; [|reflexivity]. apply logged_logger.
    + eexists. split; [|reflexivity]. apply logged_logger.
  - rewrite (bool_decide_true (is_Some (Some _))) by eauto. cbn [negb].
    cbn beta iota. rewrite Hf.
    destruct (bool_decide (get_output_path filename ∈ unreadable w)).
    + eexists. split; [|reflexivity]. apply logged_logger.
    + eexists. split; [|reflexivity]. apply logged_logger.
  - rewrite (bool_decide_false (is_Some None)) by (by intros [? ?]). cbn [negb].
    eexists. split; [|reflexivity]. apply logged_logger.
Qed.





Lemma ends_clean_not_empty s : ends_clean s = true → s ≠ [].
Proof. by destruct s. Qed.





(** ** Gathering (C4, C5) *)

Lemma keep_first_elem_of l x : x ∈ keep_first l ↔ x ∈ l.
Proof.
  induction l as [|y l IH]; [done|]. cbn [keep_first].
  rewrite !elem_of_cons, list_elem_of_filter, IH.
  destruct (decide (x = y)); naive_solver.
Qed.

Lemma keep_first_NoDup l : NoDup (keep_first l).
Proof.
  induction l as [|y l IH]; [constructor|]. cbn [keep_first].
  constructor; [|by apply NoDup_filter].
  rewrite list_elem_of_filter. naive_solver.
Qed.

Lemma keep_first_sublist l : (keep_first l) `sublist_of` l.
Proof.
  induction l as [|y l IH]; [constructor|]. cbn [keep_first].
  constructor. etrans; [apply sublist_filter | exact IH].
Qed.

Lemma set_contains_strings seen x :
  set_contains (map JStr seen) (JStr x) = bool_decide (x ∈ seen).
Proof.
  induction seen as [|y seen IH]; [done|]. cbn [map set_contains existsb py_eq].
  fold (set_contains (map JStr seen) (JStr x)). rewrite IH.
  destruct (decide (x = y)) as [->|Hne].
  - rewrite (bool_decide_true (y = y)) by done.
    by rewrite (bool_decide_true (y ∈ y :: seen)) by apply list_elem_of_here.
  - rewrite (bool_decide_false (x = y)) by done. cbn [orb].
    apply bool_decide_ext. rewrite elem_of_cons. naive_solver.
Qed.

Lemma filter_not_in_nil (l : list pystr) : filter (λ x, x ∉ []) l = l.
Proof.
  induction l as [|x l IH]; [done|].
  rewrite filter_cons_True by apply not_elem_of_nil. by rewrite IH.
Qed.

(** On strings, the loop of [_gather_all_symbols] keeps first occurrences. *)
Lemma unique_loop_strings L : ∀ unique seen,
  unique_loop (map JStr L) unique (map JStr seen)
  = inr (unique ++ map JStr (filter (λ x, x ∉ seen) (keep_first L))).
Proof.
  induction L as [|x L IH]; intros unique seen.
  - simpl. by rewrite app_nil_r.
  - cbn [map unique_loop hashable keep_first]. rewrite set_contains_strings.
    destruct (decide (x ∈ seen)) as [Hin|Hout].
    + rewrite bool_decide_true by done. cbn [negb]. rewrite IH.
      rewrite filter_cons_False by naive_solver.
      rewrite list_filter_filter_l; [done|]. intros y Hy ->. done.
    + rewrite bool_decide_false by done. cbn [negb].
      change (JStr x :: map JStr seen) with (map JStr (x :: seen)). rewrite IH.
      rewrite filter_cons_True by done. rewrite <- app_assoc. cbn [map app].
      rewrite list_filter_filter.
      rewrite (list_filter_iff (λ y, y ∉ (x :: seen)) (λ y, (y ∉ seen) ∧ (y ≠ x))); [done|].
      intros y. rewrite not_elem_of_cons. naive_solver.
Qed.

(** C4: when the symbolic section holds the string lists [S] under
    "symbols" and [T] under "aesthetic_techniques" (a missing key, or a
    missing section, counts as empty), [_gather_all_symbols] returns [S ++ T]
    with every value kept at its first occurrence only. *)
Theorem gather_symbols_dedup (d sec : list (pystr * json)) (S T : list pystr) (w : world) :
  field d "symbolic_analysis" (JDict []) = JDict sec →
  field sec "symbols" (JList []) = JList (map JStr S) →
  field sec "aesthetic_techniques" (JList []) = JList (map JStr T) →
  ∃ w', _gather_all_symbols (JDict d) w = Ret (map JStr (keep_first (S ++ T))) w'
        ∧ logged w w'.
Proof.
  unfold field. intros Hsec HS HT. unfold _gather_all_symbols.
  cbn [py_get lift]. rewrite Hsec. unfold bind at 1. cbn [ret py_get lift].
  rewrite HS. unfold bind at 1. cbn [ret extend py_iter lift app].
  unfold bind at 1. cbn [ret]. rewrite HT. unfold bind at 1. cbn [ret extend py_iter lift].
  unfold bind at 1. cbn [ret]. rewrite <- map_app.
  pose proof (unique_loop_strings (S ++ T) [] []) as Hloop.
  change (map JStr []) with (@nil json) in Hloop. rewrite Hloop. cbn [lift app].
  unfold bind at 1. cbn [ret].
  rewrite filter_not_in_nil.
  eexists. split; [reflexivity|]. apply logged_logger.
Qed.

Lemma gather_symbols_dedup_witness :
  ∃ w', _gather_all_symbols (JDict [(py "symbolic_analysis", JDict sample_symbolic)])
          blank_world
        = Ret [JStr (py "a"); JStr (py "b"); JStr (py "c")] w'
        ∧ logged blank_world w'.
Proof.
  apply (gather_symbols_dedup [(py "symbolic_analysis", JDict sample_symbolic)]
           sample_symbolic [py "a"; py "b"; py "a"; py "c"] [] blank_world);
    vm_compute; reflexivity.
Defined.

Section Mantras.
Context `{PyRuntime}.

Lemma technique_lines (T : list pystr) : ∀ acc,
  fold_left (λ acc technique, acc ++ [JStr (py "[TECHNIQUE] " ++ format_value technique)])
            (map JStr T) acc
  = acc ++ map JStr (map (λ t, py "[TECHNIQUE] " ++ t) T).
Proof.
  induction T as [|t T IH]; intros acc; cbn [map fold_left].
  - by rewrite app_nil_r.
  - rewrite IH. cbn [format_value]. by rewrite <- app_assoc.
Qed.

(** C5: when the narrative section holds the string list [mantras] under
    "mantras", the string [archetype] under "archetype" and the string list
    [techniques] under "techniques" (a missing key counts as empty),
    [_gather_all_mantras] returns the mantras as they are, duplicates
    included, then the line "[ARCHETYPE] archetype" if and only if
    [archetype] is not empty, then one line "[TECHNIQUE] t" for every
    technique [t], in order. *)
Theorem gather_mantras_verbatim (d sec : list (pystr * json))
    (mantras : list pystr) (archetype : pystr) (techniques : list pystr) (w : world) :
  field d "narrative_structures" (JDict []) = JDict sec →
  field sec "mantras" (JList []) = JList (map JStr mantras) →
  field sec "archetype" (JStr []) = JStr archetype →
  field sec "techniques" (JList []) = JList (map JStr techniques) →
  ∃ w', _gather_all_mantras (JDict d) w
        = Ret (map JStr (mantras
                         ++ (if bool_decide (archetype = []) then []
                             else [py "[ARCHETYPE] " ++ archetype])
                         ++ map (λ t, py "[TECHNIQUE] " ++ t) techniques)) w'
        ∧ logged w w'.
Proof.
  unfold field. intros Hsec Hm Ha Ht. unfold _gather_all_mantras.
  cbn [py_get lift]. rewrite Hsec. unfold bind at 1. cbn [ret py_get lift].
  rewrite Hm. unfold bind at 1. cbn [ret extend py_iter lift app].
  unfold bind at 1. cbn [ret]. rewrite Ha. unfold bind at 1. cbn [ret truthy format_value].
  rewrite Ht. unfold bind at 1. cbn [ret py_iter lift]. unfold bind at 1. cbn [ret].
  rewrite technique_lines.
  eexists. split; [|apply logged_logger].
  unfold bind, logger, ret. do 2 f_equal.
  rewrite !map_app. destruct (bool_decide (archetype = [])); cbn [negb map app].
  - reflexivity.
  - by rewrite <- app_assoc.
Qed.

End Mantras.

Lemma gather_mantras_verbatim_witness :
  ∃ w', @_gather_all_mantras sample_runtime
          (JDict [(py "narrative_structures", JDict sample_narrative)]) blank_world
        = Ret [JStr (py "x"); JStr (py "x")] w'
        ∧ logged blank_world w'.
Proof.
  apply (@gather_mantras_verbatim sample_runtime
           [(py "narrative_structures", JDict sample_narrative)]
           sample_narrative [py "x"; py "x"] [] [] blank_world);
    vm_compute; reflexivity.
Defined.

(** ** A document of the wrong shape (C7) *)

(** C7 fails on the code: with a document whose "symbols" field holds the
    number 5, [extract_symbols] does not return a boolean; the [TypeError]
    of [all_symbols.extend(5)] leaves the stage, and leaves the orchestrator
    with it, before the other two stages have run.  A document that is a
    list, such as [[1]], leaves in the same way with an [AttributeError]. *)
Theorem misshapen_document_raises `{PyRuntime} (w : world) :
  raised (extract_symbols (set_config (ConfigLoaded misshapen_document) w)) = Some TypeError
  ∧ raised (run_complete_ritual FracturaOrchestrator
              (set_config (ConfigLoaded misshapen_document) w)) = Some TypeError
  ∧ raised (extract_symbols (set_config (ConfigLoaded (JList [JInt 1])) w))
    = Some AttributeError.
Proof. repeat split; reflexivity. Qed.

(** ** Fusion (C2, C3, C9) *)

Lemma swap_head (l : list pystr) j x y :
  l !! j = Some y → y :: <[j := x]> l ≡ₚ x :: l.
Proof.
  revert j. induction l as [|a l IH]; intros [|j] Hj; try done; simpl in *.
  - injection Hj as ->. apply perm_swap.
  - rewrite (perm_swap a y), (IH j Hj). apply perm_swap.
Qed.

(** Exchanging two items of a list permutes it. *)
Lemma swap_perm (l : list pystr) i j xi xj :
  l !! i = Some xi → l !! j = Some xj → <[j := xi]> (<[i := xj]> l) ≡ₚ l.
Proof.
  revert i j. induction l as [|a l IH]; intros [|i] [|j] Hi Hj; try done; simpl in *.
  - by simplify_eq.
  - injection Hi as ->. by apply swap_head.
  - injection Hj as ->. by apply swap_head.
  - f_equiv. by apply IH.
Qed.

Lemma swap_items_spec x i j l w :
  heap w !! x = Some l → (i < length l)%nat → (j < length l)%nat →
  ∃ l', swap_items x i j w = Ret tt (set_heap (<[x := l']> (heap w)) w) ∧ l' ≡ₚ l.
Proof.
  intros Hx Hi Hj. unfold swap_items. rewrite Hx. cbn zeta; simpl (default _ (Some _)).
  destruct (lookup_lt_is_Some_2 l i Hi) as [xi Hxi].
  destruct (lookup_lt_is_Some_2 l j Hj) as [xj Hxj].
  rewrite Hxi, Hxj. cbn zeta; simpl (default _ (Some _)). eexists. split; [reflexivity|].
  by apply swap_perm.
Qed.

Lemma shuffle_loop x (indices : list nat) : ∀ l w,
  heap w !! x = Some l → Forall (λ i, (i < length l)%nat) indices →
  ∃ w', for_each indices (λ i, j <- randbelow (i + 1) ;; swap_items x i j) w = Ret tt w'
        ∧ permuted x l w w'.
Proof.
  induction indices as [|i indices IH]; intros l w Hx Hall.
  - exists w. split; [reflexivity|]. split; [by exists l | done].
  - inversion Hall as [|? ? Hi Hrest]; subst. cbn [for_each].
    pose (j := (rand w (rand_pos w) `mod` (i + 1))%nat).
    assert (j < length l)%nat as Hj.
    { pose proof (Nat.mod_upper_bound (rand w (rand_pos w)) (i + 1)). unfold j. lia. }
    destruct (swap_items_spec x i j l (set_rand_pos (S (rand_pos w)) w) Hx Hi Hj)
      as (l1 & Eswap & Hperm).
    destruct (IH l1 (set_heap (<[x := l1]> (heap w)) (set_rand_pos (S (rand_pos w)) w)))
      as (w' & Eloop & (l' & Hl' & Hperm') & Hframe).
    { simpl. apply lookup_insert_eq. }
    { assert (length l1 = length l) as Hlen by (by apply Permutation_length).
      by rewrite Hlen. }
    exists w'. split.
    + unfold bind at 1. unfold bind at 1. unfold randbelow at 1. fold j.
      by rewrite Eswap.
    + split; [exists l'; split; [done | by rewrite Hperm'] |].
      intros r Hr. rewrite Hframe by done. simpl. by rewrite lookup_insert_ne.
Qed.

Lemma shuffle_spec x l w :
  heap w !! x = Some l → ∃ w', shuffle x w = Ret tt w' ∧ permuted x l w w'.
Proof.
  intros Hx. unfold shuffle, items. unfold bind at 1. rewrite Hx. cbn zeta; simpl (default _ (Some _)).
  apply shuffle_loop; [done|].
  apply Forall_forall. intros i Hi.
  apply list_elem_of_In, in_rev, in_seq in Hi. lia.
Qed.

Lemma glitch_loop_length g : ∀ i, length (glitch_loop i g) = length g.
Proof. induction g as [|line g IH]; intros i; simpl; [done | by rewrite IH]. Qed.

Lemma glitch_loop_lookup g : ∀ i k line,
  g !! k = Some line → glitch_loop i g !! k = Some (glitch_line (i + k) line).
Proof.
  induction g as [|a g IH]; intros i [|k] line Hk; try done; simpl in *.
  - injection Hk as ->. by rewrite Nat.add_0_r.
  - rewrite (IH (S i) k line Hk). do 2 f_equal. lia.
Qed.

(** What [_create_glitched_fusion] does to the list object [content]: it
    decorates, position by position, a permutation of its items, and leaves
    every list object that existed before the call as it was. *)
Lemma fusion_spec content lines w :
  heap w !! content = Some lines →
  ∃ shuffled w',
    _create_glitched_fusion content w = Ret (glitch_loop 0 shuffled) w'
    ∧ shuffled ≡ₚ lines
    ∧ ∀ r, is_Some (heap w !! r) → heap w' !! r = heap w !! r.
Proof.
  intros Hc. unfold _create_glitched_fusion, items. unfold bind at 1.
  rewrite Hc. cbn zeta; simpl (default _ (Some _)).
  destruct (decide (lines = [])) as [->|Hne].
  - exists [], w. by rewrite bool_decide_true.
  - rewrite bool_decide_false by done.
    set (r := fresh (dom (heap w))).
    assert (heap w !! r = None) as Hfresh.
    { apply not_elem_of_dom. apply is_fresh. }
    destruct (shuffle_spec r lines (set_heap (<[r := lines]> (heap w)) w))
      as (w' & Eshuffle & (shuffled & Hs & Hperm) & Hframe).
    { simpl. apply lookup_insert_eq. }
    exists shuffled. eexists. split; [|split; [exact Hperm|]].
    + unfold bind at 1. unfold new_list at 1. fold r.
      rewrite (bind_ret _ Eshuffle). unfold bind at 1. rewrite Hs. cbn zeta; simpl (default _ (Some _)).
      reflexivity.
    + intros r0 [l0 Hr0]. simpl.
      assert (r0 ≠ r) as Hne0 by congruence.
      rewrite Hframe by done. simpl. by rewrite lookup_insert_ne.
Qed.

Lemma fuse_spec symbols mantras w :
  ∃ shuffled w',
    fuse symbols mantras w = Ret (glitch_loop 0 shuffled) w'
    ∧ shuffled ≡ₚ symbols ++ mantras
    ∧ ∀ r, is_Some (heap w !! r) → heap w' !! r = heap w !! r.
Proof.
  unfold fuse. unfold bind at 1. unfold new_list at 1.
  set (r := fresh (dom (heap w))).
  assert (heap w !! r = None) as Hfresh.
  { apply not_elem_of_dom. apply is_fresh. }
  destruct (fusion_spec r (symbols ++ mantras) (set_heap (<[r := symbols ++ mantras]> (heap w)) w))
    as (shuffled & w' & Efusion & Hperm & Hframe).
  { simpl. apply lookup_insert_eq. }
  exists shuffled, w'. split; [exact Efusion|]. split; [exact Hperm|].
  intros r0 [l0 Hr0]. assert (r0 ≠ r) as Hne by congruence.
  rewrite Hframe; simpl; rewrite lookup_insert_ne by done; eauto.
Qed.

Lemma glyph_of_nat k : glyph (Z.of_nat k) = glyph_at k.
Proof. unfold glyph, glyph_at. by rewrite Nat2Z.id. Qed.

Lemma glyph_mod_8 i : glyph (Z.of_nat i `mod` 8) = glyph_at (i `mod` 8).
Proof. by rewrite <- glyph_of_nat, Nat2Z.inj_mod. Qed.

Lemma glitch_line_decorated i line : decorated i line (glitch_line i line).
Proof.
  assert (∀ k, (i `mod` 4 = k)%nat → (Z.of_nat i `mod` 4 = Z.of_nat k)%Z) as Hmod.
  { intros k <-. by rewrite Nat2Z.inj_mod. }
  unfold decorated, glitch_line.
  change (Z.of_nat (length glitch_symbols)) with 8%Z. cbn zeta.
  repeat split; intros Hi; rewrite (Hmod _ Hi); cbn [Z.eqb Z.of_nat Pos.of_succ_nat Pos.succ Pos.eqb].
  - by rewrite glyph_mod_8.
  - f_equal. f_equal.
    replace (Z.to_nat (Z.of_nat i `mod` 3 + 1)) with (i `mod` 3 + 1)%nat
      by (change 3%Z with (Z.of_nat 3); rewrite <- Nat2Z.inj_mod; lia).
    apply map_ext. intros j. apply glyph_mod_8.
  - unfold glyph, glyph_at. done.
  - by rewrite glyph_mod_8.
Qed.

(** C2: [_create_glitched_fusion] decorates a permutation [shuffled] of the
    lines it is given, and the line at the 0-based position [i] of
    [shuffled] is decorated by the rule that [i mod 4] selects over the
    vocabulary of 8 glyphs: wrapped in the glyph at [i mod 8]; or preceded by
    a cluster of [(i mod 3) + 1] glyphs, the [j]-th being the glyph at
    [j mod 8], and a space; or followed by a space and the glyph at
    [(-i) mod 8]; or, when it has more than 2 words, rejoined with single
    spaces around the glyph at [i mod 8] inserted at the middle word
    position, and left unchanged otherwise. *)
Theorem decoration_by_position (w : world) (content : positive) (lines : list pystr) :
  heap w !! content = Some lines →
  ∃ shuffled out w',
    _create_glitched_fusion content w = Ret out w'
    ∧ shuffled ≡ₚ lines
    ∧ length glitch_symbols = 8%nat
    ∧ length out = length shuffled
    ∧ ∀ i line, shuffled !! i = Some line →
        ∃ o, out !! i = Some o ∧ decorated i line o.
Proof.
  intros Hc. destruct (fusion_spec content lines w Hc) as (shuffled & w' & E & Hperm & _).
  exists shuffled, (glitch_loop 0 shuffled), w'.
  split; [exact E|]. split; [exact Hperm|]. split; [reflexivity|].
  split; [apply glitch_loop_length|].
  intros i line Hi. exists (glitch_line i line).
  split; [|apply glitch_line_decorated].
  by rewrite (glitch_loop_lookup shuffled 0 i line Hi).
Qed.

Lemma decoration_by_position_witness :
  ∃ shuffled out w',
    _create_glitched_fusion 3%positive sample_heap_world = Ret out w'
    ∧ shuffled ≡ₚ [py "alpha"; py "beta"; py "one two three"; py "om"; py "a b c d"]
    ∧ length glitch_symbols = 8%nat
    ∧ length out = length shuffled
    ∧ ∀ i line, shuffled !! i = Some line →
        ∃ o, out !! i = Some o ∧ decorated i line o.
Proof.
  apply (decoration_by_position sample_heap_world 3%positive).
  vm_compute. reflexivity.
Defined.

(** The rules at positions 0 to 4, as the loop computes them. *)
Example glitch_loop_five_lines :
  glitch_loop 0 [py "L0"; py "L1"; py "L2"; py "one two three"; py "L4"]
  = [py "☿ L0 ☿"; py "☿☄ L1"; py "L2 ☆"; py "one ◊ two three"; py "∞ L4 ∞"].
Proof. vm_compute. reflexivity. Qed.


(** C9: [_create_glitched_fusion] leaves the list object it is given, and
    every other list object of the caller, with the items it had before the
    call: the shuffle works on a copy. *)
Theorem fusion_preserves_lists (w : world) (content : positive) (lines : list pystr) :
  heap w !! content = Some lines →
  ∃ out w',
    _create_glitched_fusion content w = Ret out w'
    ∧ heap w' !! content = Some lines
    ∧ ∀ r, is_Some (heap w !! r) → heap w' !! r = heap w !! r.
Proof.
  intros Hc. destruct (fusion_spec content lines w Hc) as (shuffled & w' & E & _ & Hframe).
  exists (glitch_loop 0 shuffled), w'. split; [exact E|]. split; [|exact Hframe].
  rewrite Hframe, Hc; eauto.
Qed.

Lemma fusion_preserves_lists_witness :
  ∃ out w',
    _create_glitched_fusion 3%positive sample_heap_world = Ret out w'
    ∧ heap w' !! 3%positive
      = Some [py "alpha"; py "beta"; py "one two three"; py "om"; py "a b c d"]
    ∧ ∀ r, is_Some (heap sample_heap_world !! r) → heap w' !! r = heap sample_heap_world !! r.
Proof.
  apply (fusion_preserves_lists sample_heap_world 3%positive).
  vm_compute. reflexivity.
Defined.

(** ** The orchestrator (C6) *)

Lemma bind_logger {B} lv msg (k : unit → M B) w :
  bind (logger lv msg) k w = k tt (set_log (log w ++ [(lv, msg)]) w).
Proof. reflexivity. Qed.

Lemma bind_tally {B} (ok : bool) (count : nat) msg_ok msg_fail (k : nat → M B) w :
  bind (if ok then logger INFO msg_ok ;; ret (count + 1)%nat
        else logger ERROR msg_fail ;; ret count) k w
  = k (if ok then count + 1 else count)%nat
      (set_log (log w ++ [(if ok then INFO else ERROR, if ok then msg_ok else msg_fail)]) w).
Proof. by destruct ok. Qed.

Ltac solve_logged :=
  repeat first [apply logged_refl | eapply logged_trans; [|apply logged_logger]].

(** C6: whatever booleans the three stages return, [run_complete_ritual]
    runs all three of them in order, each on the world the previous one
    left (with the orchestrator's own log lines added), and it returns the
    conjunction of the three booleans.  The stages are assumed to return
    rather than raise on the worlds that satisfy an invariant [P] which
    logging preserves. *)
Theorem ritual_attempts_every_stage (self : orchestrator) (P : world → Prop) (w : world) :
  (∀ w w', logged w w' → P w → P w') →
  stage_returns P (symbol_extractor self) →
  stage_returns P (mantra_extractor self) →
  stage_returns P (chant_generator self) →
  P w →
  ∃ ok1 ok2 ok3 wa w1 wb w2 wc w3 w',
    logged w wa ∧ symbol_extractor self wa = Ret ok1 w1
    ∧ logged w1 wb ∧ mantra_extractor self wb = Ret ok2 w2
    ∧ logged w2 wc ∧ chant_generator self wc = Ret ok3 w3
    ∧ logged w3 w'
    ∧ run_complete_ritual self w = Ret (ok1 && ok2 && ok3) w'.
Proof.
  intros Hlog H1 H2 H3 Hw. unfold run_complete_ritual. cbn zeta.
  rewrite !bind_logger.
  match goal with |- context [bind (symbol_extractor self) _ ?wa] =>
    assert (logged w wa) as La by solve_logged;
    destruct (H1 wa (Hlog _ _ La Hw)) as (ok1 & w1 & E1 & Hw1)
  end.
  rewrite (bind_ret _ E1), bind_tally, bind_logger.
  match goal with |- context [bind (mantra_extractor self) _ ?wb] =>
    assert (logged w1 wb) as Lb by solve_logged;
    destruct (H2 wb (Hlog _ _ Lb Hw1)) as (ok2 & w2 & E2 & Hw2)
  end.
  rewrite (bind_ret _ E2), bind_tally, bind_logger.
  match goal with |- context [bind (chant_generator self) _ ?wc] =>
    assert (logged w2 wc) as Lc by solve_logged;
    destruct (H3 wc (Hlog _ _ Lc Hw2)) as (ok3 & w3 & E3 & Hw3)
  end.
  rewrite (bind_ret _ E3), bind_tally, bind_logger.
  destruct ok1, ok2, ok3; cbn [andb Nat.add];
    first [rewrite bool_decide_true by done | rewrite bool_decide_false by done];
    rewrite ?bind_logger;
    eexists _, _, _, _, _, _, _, _, _, _;
    (split; [exact La|]); (split; [exact E1|]); (split; [exact Lb|]);
    (split; [exact E2|]); (split; [exact Lc|]); (split; [exact E3|]);
    (split; [|reflexivity]); solve_logged.
Qed.

Lemma nothing_to_do_logged w w' : logged w w' → nothing_to_do w → nothing_to_do w'.
Proof. by intros [entries ->]. Qed.

Lemma extract_symbols_nothing `{PyRuntime} : stage_returns nothing_to_do extract_symbols.
Proof.
  intros w [Hc Hf]. unfold extract_symbols, load_json_data.
  rewrite bind_logger. unfold bind at 1. cbn [config set_log]. rewrite Hc.
  rewrite bind_logger. eexists _, _. split; [reflexivity|]. by split.
Qed.

Lemma extract_mantras_nothing `{PyRuntime} : stage_returns nothing_to_do extract_mantras.
Proof.
  intros w [Hc Hf]. unfold extract_mantras, load_json_data.
  rewrite bind_logger. unfold bind at 1. cbn [config set_log]. rewrite Hc.
  rewrite bind_logger. eexists _, _. split; [reflexivity|]. by split.
Qed.

Lemma generate_chant_nothing `{PyRuntime} : stage_returns nothing_to_do generate_chant.
Proof.
  intros w Hw. unfold generate_chant. rewrite bind_logger.
  match goal with |- context [bind (_load_extracted_content _) _ ?wa] =>
    assert (nothing_to_do wa) as Ha by (by apply (nothing_to_do_logged w); [solve_logged|]);
    destruct (load_cases "symboles_extraits.txt" wa) as (w1 & L1 & E1)
  end.
  destruct Ha as [Hc Hf]. rewrite Hf, lookup_empty in E1. rewrite (bind_ret _ E1).
  assert (nothing_to_do w1) as [Hc1 Hf1] by (by apply (nothing_to_do_logged _ _ L1)).
  destruct (load_cases "mantras_extraits.txt" w1) as (w2 & L2 & E2).
  rewrite Hf1, lookup_empty in E2. rewrite (bind_ret _ E2).
  assert (nothing_to_do w2) as Hw2 by (by apply (nothing_to_do_logged _ _ L2)).
  cbn [andb]. rewrite bool_decide_true by done. cbn [andb]. rewrite bind_logger.
  eexists _, _. split; [reflexivity|]. exact Hw2.
Qed.

Lemma ritual_attempts_every_stage_witness :
  ∃ ok1 ok2 ok3 wa w1 wb w2 wc w3 w',
    logged blank_world wa ∧ @extract_symbols sample_runtime wa = Ret ok1 w1
    ∧ logged w1 wb ∧ @extract_mantras sample_runtime wb = Ret ok2 w2
    ∧ logged w2 wc ∧ @generate_chant sample_runtime wc = Ret ok3 w3
    ∧ logged w3 w'
    ∧ run_complete_ritual (@FracturaOrchestrator sample_runtime) blank_world
      = Ret (ok1 && ok2 && ok3) w'.
Proof.
  apply (ritual_attempts_every_stage (@FracturaOrchestrator sample_runtime) nothing_to_do
           blank_world nothing_to_do_logged extract_symbols_nothing extract_mantras_nothing
           generate_chant_nothing).
  split; reflexivity.
Defined.

Example ritual_after_two_failures :
  returned (run_complete_ritual (@FracturaOrchestrator sample_runtime) stale_world)
  = Some false
  ∧ match files (final (run_complete_ritual (@FracturaOrchestrator sample_runtime)
                          stale_world))
            !! get_output_path "chant_glitch_fusion.txt" with
    | Some (Text t) => str_in (py "☿ om ☿" ++ [LF] ++ py "☿☄ Φ" ++ [LF]) t
    | _ => false
    end = true.
Proof. vm_compute. done. Qed.

(** * Further properties of the program *)

(** ** Which files a computation can change *)

Lemma same_outside_refl ps w : same_outside ps w w.
Proof. by repeat split. Qed.

Lemma same_outside_trans ps w1 w2 w3 :
  same_outside ps w1 w2 → same_outside ps w2 w3 → same_outside ps w1 w3.
Proof.
  intros (Hc1 & Hr1 & Hw1 & Hf1) (Hc2 & Hr2 & Hw2 & Hf2).
  repeat split; try congruence. intros q Hq. by rewrite Hf2, Hf1.
Qed.

Lemma same_outside_logged ps w w' : logged w w' → same_outside ps w w'.
Proof. intros [entries ->]. by repeat split. Qed.

Lemma touches_ret {A} ps (a : A) : touches_only ps (ret a).
Proof. intros w. apply same_outside_refl. Qed.

Lemma touches_raise {A} ps e : touches_only ps (@raise A e).
Proof. intros w. apply same_outside_refl. Qed.

Lemma touches_lift {A} ps (r : exn + A) : touches_only ps (lift r).
Proof. destruct r; [apply touches_raise | apply touches_ret]. Qed.

Lemma touches_bind {A B} ps (m : M A) (k : A → M B) :
  touches_only ps m → (∀ a, touches_only ps (k a)) → touches_only ps (bind m k).
Proof.
  intros Hm Hk w. unfold bind. specialize (Hm w).
  destruct (m w) as [a w1|e w1]; simpl in *; [|done].
  eapply same_outside_trans; [exact Hm | apply Hk].
Qed.

Lemma touches_try {A} ps (body : M A) (handler : exn → M A) :
  touches_only ps body → (∀ e, touches_only ps (handler e)) →
  touches_only ps (try_except body handler).
Proof.
  intros Hm Hk w. unfold try_except. specialize (Hm w).
  destruct (body w) as [a w1|e w1]; simpl in *; [done|].
  eapply same_outside_trans; [exact Hm | apply Hk].
Qed.

Lemma touches_for_each {A} ps (l : list A) (body : A → M unit) :
  (∀ x, touches_only ps (body x)) → touches_only ps (for_each l body).
Proof.
  intros Hb. induction l as [|x l IH]; [apply touches_ret|].
  cbn [for_each]. apply touches_bind; [apply Hb | by intros _].
Qed.

Lemma touches_logger ps lv msg : touches_only ps (logger lv msg).
Proof. intros w. by repeat split. Qed.

Lemma touches_now ps : touches_only ps now.
Proof. intros w. by repeat split. Qed.

Lemma touches_randbelow ps n : touches_only ps (randbelow n).
Proof. intros w. by repeat split. Qed.

Lemma touches_new_list ps l : touches_only ps (new_list l).
Proof. intros w. by repeat split. Qed.

Lemma touches_items ps r : touches_only ps (items r).
Proof. intros w. by repeat split. Qed.

Lemma touches_swap_items ps x i j : touches_only ps (swap_items x i j).
Proof. intros w. by repeat split. Qed.

Lemma touches_path_exists ps p : touches_only ps (path_exists p).
Proof. intros w. by repeat split. Qed.

Lemma touches_read_lines ps p : touches_only ps (read_lines p).
Proof.
  intros w. unfold read_lines.
  destruct (files w !! p) as [[t|]|]; [| |apply same_outside_refl];
    destruct (bool_decide (p ∈ unreadable w)); apply same_outside_refl.
Qed.

Lemma touches_open_w ps p : p ∈ ps → touches_only ps (open_w p).
Proof.
  intros Hp w. unfold open_w. destruct (bool_decide (p ∈ unwritable w)).
  - apply same_outside_refl.
  - repeat split. intros q Hq. simpl. apply lookup_insert_ne. congruence.
Qed.

Lemma touches_f_write ps p chunk : p ∈ ps → touches_only ps (f_write p chunk).
Proof.
  intros Hp w. unfold f_write. destruct (encodable chunk); [|apply same_outside_refl].
  destruct (files w !! p) as [[t|]|]; repeat split; intros q Hq; simpl;
    apply lookup_insert_ne; congruence.
Qed.

Lemma touches_shuffle ps x : touches_only ps (shuffle x).
Proof.
  unfold shuffle. apply touches_bind; [apply touches_items|]. intros l.
  apply touches_for_each. intros i.
  apply touches_bind; [apply touches_randbelow | intros j; apply touches_swap_items].
Qed.

(** Splits a goal on a computation into goals on its steps. *)
Ltac touches_step :=
  lazymatch goal with
  | |- touches_only _ (bind _ _) => apply touches_bind; [|intros ?]
  | |- touches_only _ (try_except _ _) => apply touches_try; [|intros ?]
  | |- touches_only _ (for_each _ _) => apply touches_for_each; intros ?; cbn beta
  | |- touches_only _ (ret _) => apply touches_ret
  | |- touches_only _ (logger _ _) => apply touches_logger
  | |- touches_only _ now => apply touches_now
  | |- touches_only _ (lift _) => apply touches_lift
  | |- touches_only _ (items _) => apply touches_items
  | |- touches_only _ (new_list _) => apply touches_new_list
  | |- touches_only _ (shuffle _) => apply touches_shuffle
  | |- touches_only _ (path_exists _) => apply touches_path_exists
  | |- touches_only _ (read_lines _) => apply touches_read_lines
  | |- touches_only _ (open_w _) => apply touches_open_w; set_solver
  | |- touches_only _ (f_write _ _) => apply touches_f_write; set_solver
  | |- touches_only _ (if ?b then _ else _) => destruct b
  | |- touches_only _ (match ?x with _ => _ end) => destruct x
  end.

Ltac touches_steps := repeat touches_step.

(** ** Which computations never raise *)














Section Stages.
Context `{PyRuntime}.

Lemma touches_load_json_data ps : touches_only ps load_json_data.
Proof.
  intros w. unfold load_json_data. destruct (config w); by repeat split.
Qed.


Lemma touches_gather_mantras ps data : touches_only ps (_gather_all_mantras data).
Proof. unfold _gather_all_mantras. touches_steps. Qed.


Lemma touches_write_mantras ps entries p :
  p ∈ ps → touches_only ps (_write_mantras_file entries p).
Proof. intros Hp. unfold _write_mantras_file. touches_steps. Qed.

Lemma touches_write_chant ps content p :
  p ∈ ps → touches_only ps (_write_chant_file content p).
Proof. intros Hp. unfold _write_chant_file. touches_steps. Qed.

Lemma touches_load ps filename : touches_only ps (_load_extracted_content filename).
Proof. unfold _load_extracted_content. touches_steps. Qed.

Lemma touches_fusion ps content : touches_only ps (_create_glitched_fusion content).
Proof. unfold _create_glitched_fusion. touches_steps. Qed.


Lemma touches_extract_mantras : touches_only {[mantras_path]} extract_mantras.
Proof.
  unfold extract_mantras.
  apply touches_bind; [apply touches_logger|]. intros _.
  apply touches_bind; [apply touches_load_json_data|]. intros [data|]; [|apply touches_ret].
  destruct (negb (truthy data)); [apply touches_ret|].
  apply touches_bind; [apply touches_gather_mantras|]. intros mantras.
  destruct (bool_decide (mantras = [])); [touches_steps|].
  apply touches_write_mantras. unfold mantras_path. set_solver.
Qed.

Lemma touches_generate_chant : touches_only {[chant_path]} generate_chant.
Proof.
  unfold generate_chant, fuse.
  apply touches_bind; [apply touches_logger|]. intros _.
  apply touches_bind; [apply touches_load|]. intros symbols_content.
  apply touches_bind; [apply touches_load|]. intros mantras_content.
  destruct (_ && _); [touches_steps|].
  apply touches_bind.
  - apply touches_bind; [apply touches_new_list | intros r; apply touches_fusion].
  - intros glitched. apply touches_write_chant. unfold chant_path. set_solver.
Qed.







End Stages.

(** ** The report writers, case by case *)

Section WriterCases.
Context `{PyRuntime}.

Lemma write_values p (entries : list json) : ∀ i t w0 w,
  file_holds p t w0 w → Forall writable_value entries →
  ∃ w', for_each (zip (seq i (length entries)) entries)
          (λ '(i, entry),
             f_write p (format_2d i ++ py ". " ++ format_value entry ++ [LF])) w
        = Ret tt w'
        ∧ file_holds p (t ++ numbered_lines i (map format_value entries)) w0 w'.
Proof.
  induction entries as [|v entries IH]; intros i t w0 w Hh Hall.
  - exists w. split; [reflexivity|]. simpl. by rewrite app_nil_r.
  - inversion Hall as [|? ? Hv Hall']; subst. cbn [map length seq zip zip_with for_each].
    assert (encodable (format_2d i ++ py ". " ++ format_value v ++ [LF]) = true) as Hchunk.
    { rewrite !encodable_app, encodable_format_2d. unfold writable_value in Hv.
      by rewrite Hv. }
    run_step (f_write_holds p t _ w0 w Hh Hchunk).
    destruct (IH (S i) _ w0 _ ltac:(eassumption) Hall') as (w' & E & Hh').
    exists w'. split; [exact E|]. cbn [numbered_lines]. by rewrite app_assoc.
Qed.

(** The loop stops at the first entry that cannot be encoded; the lines of
    the entries before it are in the file. *)
Lemma write_values_cut p (good : list json) bad rest : ∀ i t w0 w,
  file_holds p t w0 w → Forall writable_value good →
  encodable (format_value bad) = false →
  ∃ w', for_each (zip (seq i (length (good ++ bad :: rest))) (good ++ bad :: rest))
          (λ '(i, entry),
             f_write p (format_2d i ++ py ". " ++ format_value entry ++ [LF])) w
        = Exc UnicodeEncodeError w'
        ∧ file_holds p (t ++ numbered_lines i (map format_value good)) w0 w'.
Proof.
  induction good as [|v good IH]; intros i t w0 w Hh Hall Hbad.
  - exists w. cbn [app map length seq zip zip_with for_each numbered_lines].
    rewrite app_nil_r. split; [|exact Hh].
    unfold bind, f_write. by rewrite !encodable_app, Hbad, andb_false_r.
  - inversion Hall as [|? ? Hv Hall']; subst.
    cbn [app map length seq zip zip_with for_each].
    assert (encodable (format_2d i ++ py ". " ++ format_value v ++ [LF]) = true) as Hchunk.
    { rewrite !encodable_app, encodable_format_2d. unfold writable_value in Hv.
      by rewrite Hv. }
    run_step (f_write_holds p t _ w0 w Hh Hchunk).
    destruct (IH (S i) _ w0 _ ltac:(eassumption) Hall' Hbad) as (w' & E & Hh').
    exists w'. split; [exact E|]. cbn [numbered_lines]. by rewrite app_assoc.
Qed.

Lemma first_unwritable (entries : list json) :
  Forall writable_value entries
  ∨ ∃ good bad rest,
      entries = good ++ bad :: rest ∧ Forall writable_value good
      ∧ encodable (format_value bad) = false.
Proof.
  induction entries as [|v entries IH]; [by left|].
  destruct (encodable (format_value v)) eqn:Hv.
  - destruct IH as [Hall | (good & bad & rest & -> & Hgood & Hbad)].
    + left. by constructor.
    + right. exists (v :: good), bad, rest. repeat split; [|done]. by constructor.
  - right. exists [], v, entries. by repeat split.
Qed.

Lemma open_w_keeps p w w' :
  open_w p w = Ret tt w' →
  clock w' = clock w ∧ clock_pos w' = clock_pos w ∧ log w' = log w.
Proof.
  unfold open_w. destruct (bool_decide (p ∈ unwritable w)); [done|].
  by intros [= <-].
Qed.

Lemma f_write_keeps p chunk w w' :
  f_write p chunk w = Ret tt w' →
  clock w' = clock w ∧ clock_pos w' = clock_pos w ∧ log w' = log w.
Proof.
  unfold f_write. destruct (encodable chunk); [|done].
  destruct (files w !! p) as [[t|]|]; by intros [= <-].
Qed.

(** The steps of a report writer up to the time stamp. *)
Lemma report_head_written title p w :
  encodable title = true → p ∉ unwritable w →
  ∃ w5, file_holds p
          ((([] ++ title ++ [LF]) ++ str_repeat (py "=") 50 ++ [LF; LF])
             ++ py "Extraction générée le: " ++ strftime (clock w (clock_pos w)) ++ [LF; LF])
          w w5
        ∧ clock w5 = clock w ∧ log w5 = log w
        ∧ ∀ B (k : datetime → M B),
            (open_w p ;;
             f_write p (title ++ [LF]) ;;
             f_write p (str_repeat (py "=") 50 ++ [LF; LF]) ;;
             t <- now ;;
             f_write p (py "Extraction générée le: " ++ strftime t ++ [LF; LF]) ;;
             k t) w
            = k (clock w (clock_pos w)) w5.
Proof.
  intros Htitle Hp.
  pose proof (open_w_holds p w Hp) as (w1 & E1 & H1).
  pose proof (f_write_holds p _ (title ++ [LF]) _ _ H1) as (w2 & E2 & H2).
  { by rewrite encodable_app, Htitle. }
  pose proof (f_write_holds p _ (str_repeat (py "=") 50 ++ [LF; LF]) _ _ H2 eq_refl)
    as (w3 & E3 & H3).
  destruct (open_w_keeps _ _ _ E1) as (Hc1 & Hp1 & Hl1).
  destruct (f_write_keeps _ _ _ _ E2) as (Hc2 & Hp2 & Hl2).
  destruct (f_write_keeps _ _ _ _ E3) as (Hc3 & Hp3 & Hl3).
  assert (now w3 = Ret (clock w (clock_pos w)) (set_clock_pos (S (clock_pos w3)) w3)) as E4.
  { unfold now. f_equal. rewrite Hc3, Hc2, Hc1, Hp3, Hp2, Hp1. reflexivity. }
  pose proof (f_write_holds p _
                (py "Extraction générée le: " ++ strftime (clock w (clock_pos w)) ++ [LF; LF])
                w (set_clock_pos (S (clock_pos w3)) w3) H3) as (w5 & E5 & H5).
  { rewrite !encodable_app, encodable_strftime. reflexivity. }
  destruct (f_write_keeps _ _ _ _ E5) as (Hc5 & Hp5 & Hl5).
  exists w5. split; [|split; [|split]].
  - exact H5.
  - rewrite Hc5. cbn [clock set_clock_pos]. rewrite Hc3, Hc2. exact Hc1.
  - rewrite Hl5. cbn [log set_clock_pos]. rewrite Hl3, Hl2. exact Hl1.
  - intros B k.
    rewrite (bind_ret _ E1), (bind_ret _ E2), (bind_ret _ E3), (bind_ret _ E4),
      (bind_ret _ E5). reflexivity.
Qed.

Lemma write_report_unwritable title wording done_msg fail_msg entries p w :
  p ∈ unwritable w →
  ∃ w', write_report title wording done_msg fail_msg entries p w = Ret false w'
        ∧ logged w w'.
Proof.
  intros Hp. unfold write_report, try_except.
  unfold bind at 1. unfold open_w at 1. rewrite bool_decide_true by done.
  rewrite bind_logger. eexists. split; [reflexivity|]. apply logged_logger.
Qed.

Lemma write_report_done title wording done_msg fail_msg entries p w :
  encodable title = true → encodable wording = true →
  p ∉ unwritable w → Forall writable_value entries →
  ∃ w', write_report title wording done_msg fail_msg entries p w = Ret true w'
        ∧ file_holds p (report_text title wording (clock w (clock_pos w))
                          (map format_value entries)) w w'.
Proof.
  intros Htitle Hwording Hp Hall. unfold write_report, enumerate1.
  destruct (report_head_written title p w Htitle Hp) as (w5 & H5 & _ & _ & Ehead).
  pose proof (write_values p entries 1 _ _ _ H5 Hall) as (w6 & E6 & H6).
  pose proof (f_write_holds p _
                ([LF] ++ py "--- Total: " ++ str_of_nat (length entries) ++ wording ++ [LF])
                _ _ H6) as (w7 & E7 & H7).
  { rewrite !encodable_app, (encodable_digits (str_of_nat _)) by apply str_of_nat_ascii.
    by rewrite Hwording. }
  pose proof (logger_holds INFO (done_msg ++ py p) p _ _ _ H7) as (w8 & E8 & H8).
  exists w8. split.
  - apply try_ret. rewrite Ehead.
    by rewrite (bind_ret _ E6), (bind_ret _ E7), (bind_ret _ E8).
  - destruct H8 as (Hf & Hr & Hw). split; [|done].
    rewrite Hf. do 2 f_equal. unfold report_text. rewrite length_map.
    rewrite <- !app_assoc. reflexivity.
Qed.

Lemma write_report_cut title wording done_msg fail_msg good bad rest p w :
  encodable title = true →
  p ∉ unwritable w → Forall writable_value good →
  encodable (format_value bad) = false →
  ∃ w', write_report title wording done_msg fail_msg (good ++ bad :: rest) p w
        = Ret false w'
        ∧ file_holds p (report_start title (clock w (clock_pos w))
                          (map format_value good)) w w'.
Proof.
  intros Htitle Hp Hgood Hbad. unfold write_report, enumerate1.
  destruct (report_head_written title p w Htitle Hp) as (w5 & H5 & _ & _ & Ehead).
  pose proof (write_values_cut p good bad rest 1 _ _ _ H5 Hgood Hbad) as (w6 & E6 & H6).
  pose proof (logger_holds ERROR (fail_msg ++ exn_name UnicodeEncodeError) p _ _ _ H6)
    as (w7 & E7 & H7).
  exists w7. split.
  - erewrite try_exc; [by rewrite (bind_ret _ E7)|].
    rewrite Ehead. by rewrite (bind_exc _ E6).
  - destruct H7 as (Hf & Hr & Hw). split; [|done].
    rewrite Hf. do 2 f_equal. unfold report_start. by rewrite <- !app_assoc.
Qed.


(** X4: when the file cannot be opened for writing, a report writer returns
    [False] and changes nothing but the log: a report of an earlier run
    stays as it is. *)
Theorem report_writers_unwritable (entries : list json) (p : string) (w : world) :
  p ∈ unwritable w →
  (∃ w', _write_symbols_file entries p w = Ret false w' ∧ logged w w')
  ∧ (∃ w', _write_mantras_file entries p w = Ret false w' ∧ logged w w').
Proof.
  intros Hp. split.
  - rewrite _write_symbols_file_unfold. by apply write_report_unwritable.
  - rewrite _write_mantras_file_unfold. by apply write_report_unwritable.
Qed.

(** X5: when an entry cannot be encoded, a report writer returns [False]
    after it has replaced the file: the file then holds the title, the
    separator, the time stamp and the numbered lines of the entries before
    the failing one, and no footer; what the file held before is lost. *)
Theorem report_writers_cut (good : list json) (bad : json) (rest : list json)
    (p : string) (w : world) :
  p ∉ unwritable w → Forall writable_value good →
  encodable (format_value bad) = false →
  (∃ w', _write_symbols_file (good ++ bad :: rest) p w = Ret false w'
         ∧ files w' !! p
           = Some (Text (report_start (py "🔮 Symboles analysés dans FRACTURA.Δ02")
                           (clock w (clock_pos w)) (map format_value good))))
  ∧ (∃ w', _write_mantras_file (good ++ bad :: rest) p w = Ret false w'
           ∧ files w' !! p
             = Some (Text (report_start (py "🗝️ Mantras extraits de FRACTURA.Δ02")
                             (clock w (clock_pos w)) (map format_value good)))).
Proof.
  intros Hp Hgood Hbad. split.
  - rewrite _write_symbols_file_unfold.
    destruct (write_report_cut (py "🔮 Symboles analysés dans FRACTURA.Δ02")
                (py " symboles ---") (py "✅ Symbols written successfully to: ")
                (py "❌ Error writing symbols file: ") good bad rest p w eq_refl Hp Hgood Hbad)
      as (w' & E & Hf & _).
    by exists w'.
  - rewrite _write_mantras_file_unfold.
    destruct (write_report_cut (py "🗝️ Mantras extraits de FRACTURA.Δ02")
                (py " éléments narratifs ---") (py "✅ Mantras written successfully to: ")
                (py "❌ Error writing mantras file: ") good bad rest p w eq_refl Hp Hgood Hbad)
      as (w' & E & Hf & _).
    by exists w'.
Qed.

End WriterCases.

Lemma report_writers_unwritable_witness :
  (∃ w', @_write_symbols_file sample_runtime [JStr (py "a")] symbols_path
           (World ConfigAbsent ∅ ∅ {[symbols_path]} ∅ (λ n, n) 0%nat
                  (λ _, DateTime 2025 1 2 3 4 5) 0%nat [])
         = Ret false w'
         ∧ logged (World ConfigAbsent ∅ ∅ {[symbols_path]} ∅ (λ n, n) 0%nat
                         (λ _, DateTime 2025 1 2 3 4 5) 0%nat []) w')
  ∧ (∃ w', @_write_mantras_file sample_runtime [JStr (py "a")] symbols_path
             (World ConfigAbsent ∅ ∅ {[symbols_path]} ∅ (λ n, n) 0%nat
                    (λ _, DateTime 2025 1 2 3 4 5) 0%nat [])
           = Ret false w'
           ∧ logged (World ConfigAbsent ∅ ∅ {[symbols_path]} ∅ (λ n, n) 0%nat
                           (λ _, DateTime 2025 1 2 3 4 5) 0%nat []) w').
Proof.
  apply (@report_writers_unwritable sample_runtime). vm_compute. set_solver.
Defined.

Lemma report_writers_cut_witness :
  (∃ w', @_write_symbols_file sample_runtime
           ([JStr (py "a"); JStr (py "b")] ++ JStr [55296] :: [JStr (py "c")])
           symbols_path blank_world = Ret false w'
         ∧ files w' !! symbols_path
           = Some (Text (report_start (py "🔮 Symboles analysés dans FRACTURA.Δ02")
                           (clock blank_world (clock_pos blank_world))
                           (map (@format_value sample_runtime)
                                [JStr (py "a"); JStr (py "b")]))))
  ∧ (∃ w', @_write_mantras_file sample_runtime
             ([JStr (py "a"); JStr (py "b")] ++ JStr [55296] :: [JStr (py "c")])
             symbols_path blank_world = Ret false w'
           ∧ files w' !! symbols_path
             = Some (Text (report_start (py "🗝️ Mantras extraits de FRACTURA.Δ02")
                             (clock blank_world (clock_pos blank_world))
                             (map (@format_value sample_runtime)
                                  [JStr (py "a"); JStr (py "b")])))).
Proof.
  apply (@report_writers_cut sample_runtime).
  - vm_compute. set_solver.
  - repeat constructor.
  - reflexivity.
Defined.

(** ** The extraction stages, case by case *)

Lemma logged_fields w w' :
  logged w w' →
  config w' = config w ∧ files w' = files w ∧ unreadable w' = unreadable w
  ∧ unwritable w' = unwritable w ∧ heap w' = heap w
  ∧ clock w' = clock w ∧ clock_pos w' = clock_pos w
  ∧ rand w' = rand w ∧ rand_pos w' = rand_pos w.
Proof. by intros [entries ->]. Qed.

Lemma keep_first_nil l : keep_first l = [] ↔ l = [].
Proof. by destruct l. Qed.

Lemma format_strings `{PyRuntime} (L : list pystr) : map format_value (map JStr L) = L.
Proof. induction L as [|s L IH]; [done|]. simpl. by rewrite IH. Qed.

Lemma writable_strings `{PyRuntime} (L : list pystr) :
  Forall (λ s, encodable s = true) L → Forall writable_value (map JStr L).
Proof. intros HL. apply Forall_fmap. by eapply Forall_impl. Qed.

Lemma map_JStr_nil (L : list pystr) : map JStr L = [] ↔ L = [].
Proof. by destruct L. Qed.

(** What [_gather_all_symbols] returns on string lists. *)
Lemma gather_symbols_strings (d sec : list (pystr * json)) (S T : list pystr) (w : world) :
  field d "symbolic_analysis" (JDict []) = JDict sec →
  field sec "symbols" (JList []) = JList (map JStr S) →
  field sec "aesthetic_techniques" (JList []) = JList (map JStr T) →
  ∃ w', _gather_all_symbols (JDict d) w = Ret (map JStr (keep_first (S ++ T))) w'
        ∧ logged w w'.
Proof.
  unfold field. intros Hsec HS HT. unfold _gather_all_symbols.
  cbn [py_get lift]. rewrite Hsec. unfold bind at 1. cbn [ret py_get lift].
  rewrite HS. unfold bind at 1. cbn [ret extend py_iter lift app].
  unfold bind at 1. cbn [ret]. rewrite HT. unfold bind at 1. cbn [ret extend py_iter lift].
  unfold bind at 1. cbn [ret]. rewrite <- map_app.
  pose proof (unique_loop_strings (S ++ T) [] []) as Hloop.
  change (map JStr []) with (@nil json) in Hloop. rewrite Hloop. cbn [lift app].
  unfold bind at 1. cbn [ret]. rewrite filter_not_in_nil.
  eexists. split; [reflexivity|]. apply logged_logger.
Qed.

Section Extraction.
Context `{PyRuntime}.

(** What [_gather_all_mantras] returns on strings. *)
Lemma gather_mantras_strings (d sec : list (pystr * json))
    (mantras : list pystr) (archetype : pystr) (techniques : list pystr) (w : world) :
  field d "narrative_structures" (JDict []) = JDict sec →
  field sec "mantras" (JList []) = JList (map JStr mantras) →
  field sec "archetype" (JStr []) = JStr archetype →
  field sec "techniques" (JList []) = JList (map JStr techniques) →
  ∃ w', _gather_all_mantras (JDict d) w
        = Ret (map JStr (mantra_lines mantras archetype techniques)) w'
        ∧ logged w w'.
Proof.
  unfold field. intros Hsec Hm Ha Ht. unfold _gather_all_mantras.
  cbn [py_get lift]. rewrite Hsec. unfold bind at 1. cbn [ret py_get lift].
  rewrite Hm. unfold bind at 1. cbn [ret extend py_iter lift app].
  unfold bind at 1. cbn [ret]. rewrite Ha. unfold bind at 1. cbn [ret truthy format_value].
  rewrite Ht. unfold bind at 1. cbn [ret py_iter lift]. unfold bind at 1. cbn [ret].
  rewrite technique_lines.
  eexists. split; [|apply logged_logger].
  unfold bind, logger, ret, mantra_lines. do 2 f_equal.
  rewrite !map_app. destruct (bool_decide (archetype = [])); cbn [negb map app].
  - reflexivity.
  - by rewrite <- app_assoc.
Qed.

(** The start of both extraction stages on a loaded, non-empty document. *)
Lemma load_document (d : list (pystr * json)) w :
  config w = ConfigLoaded (JDict d) →
  ∃ w', load_json_data w = Ret (Some (JDict d)) w' ∧ logged w w'.
Proof.
  intros Hc. unfold load_json_data. rewrite Hc. rewrite bind_logger.
  eexists. split; [reflexivity|]. apply logged_logger.
Qed.


(** X7: on a document whose symbolic section holds no symbol and no
    aesthetic technique, [extract_symbols] returns [False] and changes
    nothing but the log. *)
Theorem extract_symbols_finds_nothing (d sec : list (pystr * json)) (w : world) :
  config w = ConfigLoaded (JDict d) → d ≠ [] →
  field d "symbolic_analysis" (JDict []) = JDict sec →
  field sec "symbols" (JList []) = JList [] →
  field sec "aesthetic_techniques" (JList []) = JList [] →
  ∃ w', extract_symbols w = Ret false w' ∧ logged w w'.
Proof.
  intros Hc Hd Hsec HS HT. unfold extract_symbols. rewrite bind_logger.
  match goal with |- context [bind load_json_data _ ?w0] =>
    destruct (load_document d w0 Hc) as (w1 & E1 & L1)
  end.
  rewrite (bind_ret _ E1). cbn [truthy]. rewrite bool_decide_false by done. cbn [negb].
  destruct (gather_symbols_strings d sec [] [] w1 Hsec HS HT) as (w2 & E2 & L2).
  rewrite (bind_ret _ E2). cbn [app keep_first map].
  rewrite bool_decide_true by done. rewrite bind_logger.
  eexists. split; [reflexivity|].
  eapply logged_trans; [|apply logged_logger].
  eapply logged_trans; [|exact L2]. eapply logged_trans; [|exact L1]. apply logged_logger.
Qed.

Lemma extract_symbols_report (d sec : list (pystr * json)) (S T : list pystr)
    (w : world) :
  config w = ConfigLoaded (JDict d) → d ≠ [] →
  field d "symbolic_analysis" (JDict []) = JDict sec →
  field sec "symbols" (JList []) = JList (map JStr S) →
  field sec "aesthetic_techniques" (JList []) = JList (map JStr T) →
  S ++ T ≠ [] →
  Forall (λ s, encodable s = true) (S ++ T) →
  symbols_path ∉ unwritable w →
  ∃ w', extract_symbols w = Ret true w'
        ∧ file_holds symbols_path
            (report_text (py "🔮 Symboles analysés dans FRACTURA.Δ02") (py " symboles ---")
               (clock w (clock_pos w)) (keep_first (S ++ T))) w w'.
Proof.
  intros Hc Hd Hsec HS HT Hne Henc Hw. unfold extract_symbols. rewrite bind_logger.
  match goal with |- context [bind load_json_data _ ?w0] =>
    assert (logged w w0) as L0 by apply logged_logger;
    destruct (load_document d w0 Hc) as (w1 & E1 & L1)
  end.
  rewrite (bind_ret _ E1). cbn [truthy]. rewrite bool_decide_false by done. cbn [negb].
  destruct (gather_symbols_strings d sec S T w1 Hsec HS HT) as (w2 & E2 & L2).
  rewrite (bind_ret _ E2).
  rewrite bool_decide_false by (rewrite map_JStr_nil, keep_first_nil; done).
  assert (logged w w2) as L by (eapply logged_trans; [eapply logged_trans|]; eassumption).
  destruct (logged_fields _ _ L) as (_ & _ & Hr2 & Hw2 & _ & Hclock & Hpos & _).
  rewrite _write_symbols_file_unfold.
  destruct (write_report_done (py "🔮 Symboles analysés dans FRACTURA.Δ02")
              (py " symboles ---") (py "✅ Symbols written successfully to: ")
              (py "❌ Error writing symbols file: ")
              (map JStr (keep_first (S ++ T))) symbols_path w2 eq_refl eq_refl)
    as (w' & E & Hf & Hr & Hw').
  { by rewrite Hw2. }
  { apply writable_strings. apply Forall_forall. intros s Hs.
    rewrite Forall_forall in Henc. apply Henc. by apply keep_first_elem_of. }
  exists w'. split; [exact E|].
  rewrite format_strings, Hclock, Hpos in Hf. split; [exact Hf|]. split; congruence.
Qed.

(** X8: on a document whose symbolic section holds the string lists [S] and
    [T], not both empty, [extract_symbols] returns [True] when the report
    can be written, and the report file then holds exactly the report of
    [S ++ T] without its repetitions, whatever it held before. *)
Theorem extract_symbols_writes_report (d sec : list (pystr * json)) (S T : list pystr)
    (w : world) :
  config w = ConfigLoaded (JDict d) → d ≠ [] →
  field d "symbolic_analysis" (JDict []) = JDict sec →
  field sec "symbols" (JList []) = JList (map JStr S) →
  field sec "aesthetic_techniques" (JList []) = JList (map JStr T) →
  S ++ T ≠ [] →
  Forall (λ s, encodable s = true) (S ++ T) →
  symbols_path ∉ unwritable w →
  ∃ w', extract_symbols w = Ret true w'
        ∧ file_holds symbols_path
            (report_text (py "🔮 Symboles analysés dans FRACTURA.Δ02") (py " symboles ---")
               (clock w (clock_pos w)) (keep_first (S ++ T))) w w'.
Proof. apply extract_symbols_report. Qed.

End Extraction.


Lemma extract_symbols_finds_nothing_witness :
  ∃ w', @extract_symbols sample_runtime
          (world_with (JDict [(py "narrative_structures", JDict sample_narrative)]))
        = Ret false w'
        ∧ logged (world_with (JDict [(py "narrative_structures", JDict sample_narrative)])) w'.
Proof.
  apply (@extract_symbols_finds_nothing sample_runtime
           [(py "narrative_structures", JDict sample_narrative)] []);
    first [done | vm_compute; reflexivity].
Defined.

Lemma extract_symbols_writes_report_witness :
  ∃ w', @extract_symbols sample_runtime (world_with sample_document) = Ret true w'
        ∧ file_holds symbols_path
            (report_text (py "🔮 Symboles analysés dans FRACTURA.Δ02") (py " symboles ---")
               (clock (world_with sample_document) (clock_pos (world_with sample_document)))
               (keep_first ([py "Φ"; py "Ψ"; py "Φ"] ++ [py "glitch"])))
            (world_with sample_document) w'.
Proof.
  apply (@extract_symbols_writes_report sample_runtime sample_document_entries
           sample_document_symbolic [py "Φ"; py "Ψ"; py "Φ"] [py "glitch"]
           (world_with sample_document)).
  - reflexivity.
  - done.
  - vm_compute. reflexivity.
  - vm_compute. reflexivity.
  - vm_compute. reflexivity.
  - done.
  - repeat constructor.
  - vm_compute. set_solver.
Defined.

Section ExtractionThenReading.
Context `{PyRuntime}.

Lemma plain_entry_encodable L :
  Forall plain_entry L → Forall (λ s, encodable s = true) L.
Proof. intros HL. eapply Forall_impl; [exact HL|]. by intros s (_ & _ & ?). Qed.

(** X9: the symbols stage followed by the reader: when the entries of [S]
    and [T] are plain (no line end, not empty, no trailing whitespace,
    encodable) and the report file can be written and read, reading the
    report right after [extract_symbols] yields [S ++ T] without its
    repetitions. *)
Theorem extract_symbols_then_read (d sec : list (pystr * json)) (S T : list pystr)
    (w : world) :
  config w = ConfigLoaded (JDict d) → d ≠ [] →
  field d "symbolic_analysis" (JDict []) = JDict sec →
  field sec "symbols" (JList []) = JList (map JStr S) →
  field sec "aesthetic_techniques" (JList []) = JList (map JStr T) →
  S ++ T ≠ [] →
  Forall plain_entry (S ++ T) →
  symbols_path ∉ unwritable w → symbols_path ∉ unreadable w →
  ∃ w', (ok <- extract_symbols ;;
         back <- _load_extracted_content "symboles_extraits.txt" ;;
         ret (ok, back)) w
        = Ret (true, keep_first (S ++ T)) w'.
Proof.
  intros Hc Hd Hsec HS HT Hne Hplain Hw Hr.
  destruct (extract_symbols_report d sec S T w Hc Hd Hsec HS HT Hne
              (plain_entry_encodable _ Hplain) Hw) as (w1 & E1 & Hf & Hr1 & _).
  destruct (load_readable "symboles_extraits.txt" _ w1 Hf) as (w2 & E2).
  { unfold symbols_path in Hr. by rewrite Hr1. }
  exists w2. rewrite (bind_ret _ E1), (bind_ret _ E2). unfold ret. do 3 f_equal.
  apply read_report; [no_break_closed | vm_compute; reflexivity ..
                       | no_break_closed | vm_compute; reflexivity |].
  apply Forall_forall. intros s Hs. rewrite Forall_forall in Hplain.
  apply Hplain. by apply keep_first_elem_of.
Qed.

Lemma extract_mantras_report (d sec : list (pystr * json))
    (mantras : list pystr) (archetype : pystr) (techniques : list pystr) (w : world) :
  config w = ConfigLoaded (JDict d) → d ≠ [] →
  field d "narrative_structures" (JDict []) = JDict sec →
  field sec "mantras" (JList []) = JList (map JStr mantras) →
  field sec "archetype" (JStr []) = JStr archetype →
  field sec "techniques" (JList []) = JList (map JStr techniques) →
  mantra_lines mantras archetype techniques ≠ [] →
  Forall (λ s, encodable s = true) (mantra_lines mantras archetype techniques) →
  mantras_path ∉ unwritable w →
  ∃ w', extract_mantras w = Ret true w'
        ∧ file_holds mantras_path
            (report_text (py "🗝️ Mantras extraits de FRACTURA.Δ02")
               (py " éléments narratifs ---")
               (clock w (clock_pos w)) (mantra_lines mantras archetype techniques)) w w'.
Proof.
  intros Hc Hd Hsec Hm Ha Ht Hne Henc Hw. unfold extract_mantras. rewrite bind_logger.
  match goal with |- context [bind load_json_data _ ?w0] =>
    assert (logged w w0) as L0 by apply logged_logger;
    destruct (load_document d w0 Hc) as (w1 & E1 & L1)
  end.
  rewrite (bind_ret _ E1). cbn [truthy]. rewrite bool_decide_false by done. cbn [negb].
  destruct (gather_mantras_strings d sec mantras archetype techniques w1 Hsec Hm Ha Ht)
    as (w2 & E2 & L2).
  rewrite (bind_ret _ E2).
  rewrite bool_decide_false by (by rewrite map_JStr_nil).
  assert (logged w w2) as L by (eapply logged_trans; [eapply logged_trans|]; eassumption).
  destruct (logged_fields _ _ L) as (_ & _ & Hr2 & Hw2 & _ & Hclock & Hpos & _).
  rewrite _write_mantras_file_unfold.
  destruct (write_report_done (py "🗝️ Mantras extraits de FRACTURA.Δ02")
              (py " éléments narratifs ---") (py "✅ Mantras written successfully to: ")
              (py "❌ Error writing mantras file: ")
              (map JStr (mantra_lines mantras archetype techniques)) mantras_path w2
              eq_refl eq_refl)
    as (w' & E & Hf & Hr & Hw').
  { by rewrite Hw2. }
  { by apply writable_strings. }
  exists w'. split; [exact E|].
  rewrite format_strings, Hclock, Hpos in Hf. split; [exact Hf|]. split; congruence.
Qed.

(** X10: on a document whose narrative section holds the strings
    [mantras], [archetype] and [techniques], with some line to write,
    [extract_mantras] returns [True] when the report can be written, and the
    report file then holds exactly the report of the mantra lines. *)
Theorem extract_mantras_writes_report (d sec : list (pystr * json))
    (mantras : list pystr) (archetype : pystr) (techniques : list pystr) (w : world) :
  config w = ConfigLoaded (JDict d) → d ≠ [] →
  field d "narrative_structures" (JDict []) = JDict sec →
  field sec "mantras" (JList []) = JList (map JStr mantras) →
  field sec "archetype" (JStr []) = JStr archetype →
  field sec "techniques" (JList []) = JList (map JStr techniques) →
  mantra_lines mantras archetype techniques ≠ [] →
  Forall (λ s, encodable s = true) (mantra_lines mantras archetype techniques) →
  mantras_path ∉ unwritable w →
  ∃ w', extract_mantras w = Ret true w'
        ∧ file_holds mantras_path
            (report_text (py "🗝️ Mantras extraits de FRACTURA.Δ02")
               (py " éléments narratifs ---")
               (clock w (clock_pos w)) (mantra_lines mantras archetype techniques)) w w'.
Proof. apply extract_mantras_report. Qed.

(** X11: the mantras stage followed by the reader: when the mantra lines
    are plain and the report file can be written and read, reading the
    report right after [extract_mantras] yields the mantras as they are in
    the document (repetitions included), then the archetype line if the
    archetype is not empty, then the technique lines. *)
Theorem extract_mantras_then_read (d sec : list (pystr * json))
    (mantras : list pystr) (archetype : pystr) (techniques : list pystr) (w : world) :
  config w = ConfigLoaded (JDict d) → d ≠ [] →
  field d "narrative_structures" (JDict []) = JDict sec →
  field sec "mantras" (JList []) = JList (map JStr mantras) →
  field sec "archetype" (JStr []) = JStr archetype →
  field sec "techniques" (JList []) = JList (map JStr techniques) →
  mantra_lines mantras archetype techniques ≠ [] →
  Forall plain_entry (mantra_lines mantras archetype techniques) →
  mantras_path ∉ unwritable w → mantras_path ∉ unreadable w →
  ∃ w', (ok <- extract_mantras ;;
         back <- _load_extracted_content "mantras_extraits.txt" ;;
         ret (ok, back)) w
        = Ret (true, mantra_lines mantras archetype techniques) w'.
Proof.
  intros Hc Hd Hsec Hm Ha Ht Hne Hplain Hw Hr.
  destruct (extract_mantras_report d sec mantras archetype techniques w
              Hc Hd Hsec Hm Ha Ht Hne (plain_entry_encodable _ Hplain) Hw)
    as (w1 & E1 & Hf & Hr1 & _).
  destruct (load_readable "mantras_extraits.txt" _ w1 Hf) as (w2 & E2).
  { unfold mantras_path in Hr. by rewrite Hr1. }
  exists w2. rewrite (bind_ret _ E1), (bind_ret _ E2). unfold ret. do 3 f_equal.
  apply read_report; [no_break_closed | vm_compute; reflexivity ..
                       | no_break_closed | vm_compute; reflexivity | exact Hplain].
Qed.

End ExtractionThenReading.

(** ** The chant stage, case by case *)

Lemma steady_refl w : steady w w.
Proof. by repeat split. Qed.

Lemma steady_trans w1 w2 w3 : steady w1 w2 → steady w2 w3 → steady w1 w3.
Proof.
  intros (? & ? & ? & ? & ? & ?) (? & ? & ? & ? & ? & ?). repeat split; congruence.
Qed.

Lemma quiet_ret {A} (a : A) : quiet (ret a).
Proof. intros w. apply steady_refl. Qed.

Lemma quiet_bind {A B} (m : M A) (k : A → M B) :
  quiet m → (∀ a, quiet (k a)) → quiet (bind m k).
Proof.
  intros Hm Hk w. unfold bind. specialize (Hm w).
  destruct (m w) as [a w1|e w1]; simpl in *; [|done].
  eapply steady_trans; [exact Hm | apply Hk].
Qed.

Lemma quiet_for_each {A} (l : list A) (body : A → M unit) :
  (∀ x, quiet (body x)) → quiet (for_each l body).
Proof.
  intros Hb. induction l as [|x l IH]; [apply quiet_ret|].
  cbn [for_each]. apply quiet_bind; [apply Hb | by intros _].
Qed.

Lemma quiet_logger lv msg : quiet (logger lv msg).
Proof. intros w. by repeat split. Qed.

Lemma quiet_randbelow n : quiet (randbelow n).
Proof. intros w. by repeat split. Qed.

Lemma quiet_new_list l : quiet (new_list l).
Proof. intros w. by repeat split. Qed.

Lemma quiet_items r : quiet (items r).
Proof. intros w. by repeat split. Qed.

Lemma quiet_swap_items x i j : quiet (swap_items x i j).
Proof. intros w. by repeat split. Qed.

Lemma quiet_shuffle x : quiet (shuffle x).
Proof.
  unfold shuffle. apply quiet_bind; [apply quiet_items|]. intros l.
  apply quiet_for_each. intros i.
  apply quiet_bind; [apply quiet_randbelow | intros j; apply quiet_swap_items].
Qed.

Lemma quiet_fusion content : quiet (_create_glitched_fusion content).
Proof.
  unfold _create_glitched_fusion.
  apply quiet_bind; [apply quiet_items|]. intros lines.
  destruct (bool_decide (lines = [])); [apply quiet_ret|].
  apply quiet_bind; [apply quiet_new_list|]. intros r.
  apply quiet_bind; [apply quiet_shuffle|]. intros _.
  apply quiet_bind; [apply quiet_items|]. intros shuffled.
  apply quiet_bind; [apply quiet_logger | intros _; apply quiet_ret].
Qed.

Lemma quiet_fuse symbols mantras : quiet (fuse symbols mantras).
Proof.
  unfold fuse. apply quiet_bind; [apply quiet_new_list | intros r; apply quiet_fusion].
Qed.

Lemma logged_steady w w' : logged w w' → steady w w'.
Proof. intros Hl. destruct (logged_fields _ _ Hl) as (?&?&?&?&?&?&?&?). by repeat split. Qed.

(** *** The characters of a decorated line *)

Lemma encodable_Forall s : encodable s = true ↔ Forall (λ c, encodable_char c = true) s.
Proof.
  unfold encodable. rewrite forallb_forall, Forall_forall.
  split; intros Hs c Hc; apply Hs; by apply list_elem_of_In.
Qed.

Lemma encodable_all (l : list pystr) :
  forallb encodable l = true → Forall (λ s, encodable s = true) l.
Proof.
  rewrite forallb_forall, Forall_forall. intros Hl s Hs. apply Hl. by apply list_elem_of_In.
Qed.

Lemma split_ws_aux_chars (P : N → Prop) s : ∀ cur,
  Forall P cur → Forall P s → Forall (Forall P) (split_ws_aux cur s).
Proof.
  induction s as [|c s IH]; intros cur Hcur Hs; cbn [split_ws_aux].
  - destruct cur; [constructor|]. constructor; [|constructor]. by apply Forall_rev.
  - inversion Hs as [|? ? Hc Hs']; subst. destruct (py_isspace c).
    + destruct cur; [by apply IH|].
      constructor; [by apply Forall_rev | by apply IH].
    + apply IH; [by constructor | done].
Qed.

Lemma join_chars (P : N → Prop) sep parts :
  Forall P sep → Forall (Forall P) parts → Forall P (join sep parts).
Proof.
  intros Hsep. induction 1 as [|p parts Hp Hparts IH]; [constructor|].
  cbn [join]. destruct parts as [|q parts]; [done|].
  apply Forall_app. split; [done|]. apply Forall_app. by split.
Qed.

Lemma mjoin_chars (P : N → Prop) (parts : list pystr) :
  Forall (Forall P) parts → Forall P (mjoin parts).
Proof.
  induction 1 as [|p parts Hp Hparts IH]; [constructor|].
  change (mjoin (p :: parts)) with (p ++ mjoin parts). apply Forall_app. by split.
Qed.

Lemma glyph_chars k : Forall (λ c, encodable_char c = true) (glyph k).
Proof.
  unfold glyph. destruct (glitch_symbols !! Z.to_nat k) as [g|] eqn:Hg; [|constructor].
  assert (Forall (λ g, encodable g = true) glitch_symbols) as Hall
    by (repeat constructor).
  apply encodable_Forall. by eapply Forall_lookup_1 in Hall.
Qed.

(** The decoration adds glyphs and spaces only: a line that can be encoded
    stays so. *)
Lemma glitch_line_encodable i line :
  encodable line = true → encodable (glitch_line i line) = true.
Proof.
  rewrite !encodable_Forall. intros Hline. unfold glitch_line. cbn zeta.
  assert (Forall (λ c, encodable_char c = true) [SP]) as Hsp by (by repeat constructor).
  repeat case_match.
  - repeat (apply Forall_app; split); auto using glyph_chars.
  - repeat (apply Forall_app; split); auto.
    apply mjoin_chars, Forall_forall. intros g Hg.
    apply list_elem_of_fmap in Hg as (j & -> & _). apply glyph_chars.
  - repeat (apply Forall_app; split); auto using glyph_chars.
  - apply join_chars; [done|]. unfold list_insert_at.
    pose proof (split_ws_aux_chars _ line [] (Forall_nil_2 _) Hline) as Hwords.
    fold (split_ws line) in Hwords.
    apply Forall_app. split; [by apply Forall_take|].
    constructor; [apply glyph_chars | by apply Forall_drop].
  - done.
Qed.

Lemma glitch_loop_encodable g : ∀ i,
  Forall (λ s, encodable s = true) g → Forall (λ s, encodable s = true) (glitch_loop i g).
Proof.
  induction g as [|line g IH]; intros i Hg; [constructor|].
  inversion Hg; subst. cbn [glitch_loop].
  constructor; [by apply glitch_line_encodable | by apply IH].
Qed.

(** *** Writing the chant *)

Lemma write_lines p (content : list pystr) : ∀ t w0 w,
  file_holds p t w0 w → Forall (λ s, encodable s = true) content →
  ∃ w', for_each content (λ line, f_write p (line ++ [LF])) w = Ret tt w'
        ∧ file_holds p (t ++ chant_lines content) w0 w'
        ∧ clock w' = clock w ∧ clock_pos w' = clock_pos w.
Proof.
  induction content as [|line content IH]; intros t w0 w Hh Hall.
  - exists w. split; [reflexivity|]. unfold chant_lines. simpl.
    by rewrite app_nil_r.
  - inversion Hall as [|? ? Hline Hall']; subst. cbn [for_each].
    assert (encodable (line ++ [LF]) = true) as Hchunk
      by (by rewrite encodable_app, Hline).
    destruct (f_write_holds p t _ w0 w Hh Hchunk) as (w1 & E1 & H1).
    destruct (f_write_keeps _ _ _ _ E1) as (Hc1 & Hp1 & _).
    destruct (IH _ w0 w1 H1 Hall') as (w' & E & Hh' & Hc & Hp').
    exists w'. rewrite (bind_ret _ E1). split; [exact E|].
    split; [|split; congruence].
    unfold chant_lines in *. cbn [map mjoin list_join]. by rewrite app_assoc.
Qed.

Lemma write_lines_cut p (good : list pystr) bad rest : ∀ t w0 w,
  file_holds p t w0 w → Forall (λ s, encodable s = true) good →
  encodable bad = false →
  ∃ w', for_each (good ++ bad :: rest) (λ line, f_write p (line ++ [LF])) w
        = Exc UnicodeEncodeError w'
        ∧ file_holds p (t ++ chant_lines good) w0 w'.
Proof.
  induction good as [|line good IH]; intros t w0 w Hh Hall Hbad.
  - exists w. cbn [app for_each]. unfold bind, f_write.
    rewrite encodable_app, Hbad. split; [done|].
    unfold chant_lines. simpl. by rewrite app_nil_r.
  - inversion Hall as [|? ? Hline Hall']; subst. cbn [app for_each].
    assert (encodable (line ++ [LF]) = true) as Hchunk
      by (by rewrite encodable_app, Hline).
    destruct (f_write_holds p t _ w0 w Hh Hchunk) as (w1 & E1 & H1).
    destruct (IH _ w0 w1 H1 Hall' Hbad) as (w' & E & Hh').
    exists w'. rewrite (bind_ret _ E1). split; [exact E|].
    unfold chant_lines in *. cbn [map mjoin list_join]. by rewrite app_assoc.
Qed.

Lemma first_unencodable (content : list pystr) :
  Forall (λ s, encodable s = true) content
  ∨ ∃ good bad rest,
      content = good ++ bad :: rest ∧ Forall (λ s, encodable s = true) good
      ∧ encodable bad = false.
Proof.
  induction content as [|s content IH]; [by left|].
  destruct (encodable s) eqn:Hs.
  - destruct IH as [Hall | (good & bad & rest & -> & Hgood & Hbad)].
    + left. by constructor.
    + right. exists (s :: good), bad, rest. repeat split; [|done]. by constructor.
  - right. exists [], s, content. by repeat split.
Qed.

(** The steps of [_write_chant_file] up to the invocation lines. *)
Lemma chant_head_written count p w :
  p ∉ unwritable w →
  ∃ w9, file_holds p (chant_head (clock w (clock_pos w)) count) w w9
        ∧ ∀ B (k : M B),
            (open_w p ;;
             f_write p (py "🔊 CHANT GLITCHÉ SACRÉ – FRACTURA.Δ02" ++ [LF]) ;;
             f_write p (str_repeat (py "=") 60 ++ [LF]) ;;
             f_write p (py "Par la Fracture vient la Vue" ++ [LF]) ;;
             f_write p (py "Lux contre Spectaculum" ++ [LF]) ;;
             f_write p (str_repeat (py "=") 60 ++ [LF; LF]) ;;
             t <- now ;;
             f_write p (py "Généré le: " ++ strftime t ++ [LF]) ;;
             f_write p (py "Éléments fusionnés: " ++ str_of_nat count ++ [LF; LF]) ;;
             f_write p (py "--- INVOCATION ---" ++ [LF; LF]) ;;
             k) w
            = k w9.
Proof.
  intros Hp.
  pose proof (open_w_holds p w Hp) as (w1 & E1 & H1).
  pose proof (f_write_holds p _ (py "🔊 CHANT GLITCHÉ SACRÉ – FRACTURA.Δ02" ++ [LF])
                _ _ H1 eq_refl) as (w2 & E2 & H2).
  pose proof (f_write_holds p _ (str_repeat (py "=") 60 ++ [LF]) _ _ H2 eq_refl)
    as (w3 & E3 & H3).
  pose proof (f_write_holds p _ (py "Par la Fracture vient la Vue" ++ [LF]) _ _ H3 eq_refl)
    as (w4 & E4 & H4).
  pose proof (f_write_holds p _ (py "Lux contre Spectaculum" ++ [LF]) _ _ H4 eq_refl)
    as (w5 & E5 & H5).
  pose proof (f_write_holds p _ (str_repeat (py "=") 60 ++ [LF; LF]) _ _ H5 eq_refl)
    as (w6 & E6 & H6).
  destruct (open_w_keeps _ _ _ E1) as (Hc1 & Hp1 & _).
  destruct (f_write_keeps _ _ _ _ E2) as (Hc2 & Hp2 & _).
  destruct (f_write_keeps _ _ _ _ E3) as (Hc3 & Hp3 & _).
  destruct (f_write_keeps _ _ _ _ E4) as (Hc4 & Hp4 & _).
  destruct (f_write_keeps _ _ _ _ E5) as (Hc5 & Hp5 & _).
  destruct (f_write_keeps _ _ _ _ E6) as (Hc6 & Hp6 & _).
  assert (now w6 = Ret (clock w (clock_pos w)) (set_clock_pos (S (clock_pos w6)) w6)) as E7.
  { unfold now. f_equal.
    rewrite Hc6, Hc5, Hc4, Hc3, Hc2, Hc1, Hp6, Hp5, Hp4, Hp3, Hp2, Hp1. reflexivity. }
  pose proof (f_write_holds p _
                (py "Généré le: " ++ strftime (clock w (clock_pos w)) ++ [LF])
                w (set_clock_pos (S (clock_pos w6)) w6) H6) as (w8 & E8 & H8).
  { rewrite !encodable_app, encodable_strftime. reflexivity. }
  pose proof (f_write_holds p _
                (py "Éléments fusionnés: " ++ str_of_nat count ++ [LF; LF]) _ _ H8)
    as (w9 & E9 & H9).
  { rewrite !encodable_app, (encodable_digits (str_of_nat _)) by apply str_of_nat_ascii.
    reflexivity. }
  pose proof (f_write_holds p _ (py "--- INVOCATION ---" ++ [LF; LF]) _ _ H9 eq_refl)
    as (w10 & E10 & H10).
  exists w10. split; [exact H10|]. intros B k.
  rewrite (bind_ret _ E1), (bind_ret _ E2), (bind_ret _ E3), (bind_ret _ E4),
    (bind_ret _ E5), (bind_ret _ E6), (bind_ret _ E7), (bind_ret _ E8),
    (bind_ret _ E9), (bind_ret _ E10). reflexivity.
Qed.

Section ChantCases.
Context `{PyRuntime}.

Lemma write_chant_unwritable content p w :
  p ∈ unwritable w →
  ∃ w', _write_chant_file content p w = Ret false w' ∧ logged w w'.
Proof.
  intros Hp. unfold _write_chant_file, try_except.
  unfold bind at 1. unfold open_w at 1. rewrite bool_decide_true by done.
  rewrite bind_logger. eexists. split; [reflexivity|]. apply logged_logger.
Qed.

Lemma write_chant_done content p w :
  p ∉ unwritable w → Forall (λ s, encodable s = true) content →
  ∃ w', _write_chant_file content p w = Ret true w'
        ∧ file_holds p (chant_text (clock w (clock_pos w)) content) w w'.
Proof.
  intros Hp Hall. unfold _write_chant_file.
  destruct (chant_head_written (length content) p w Hp) as (w9 & H9 & Ehead).
  pose proof (write_lines p content _ _ _ H9 Hall) as (w10 & E10 & H10 & _).
  pose proof (f_write_holds p _ ([LF] ++ py "--- FIN DE L'INVOCATION ---" ++ [LF])
                _ _ H10 eq_refl) as (w11 & E11 & H11).
  pose proof (f_write_holds p _ (py "FRACTURA.Δ02 // Luxcordia.EXE" ++ [LF])
                _ _ H11 eq_refl) as (w12 & E12 & H12).
  pose proof (logger_holds INFO (py "✅ Glitch chant written successfully to: " ++ py p)
                p _ _ _ H12) as (w13 & E13 & H13).
  exists w13. split.
  - apply try_ret. rewrite Ehead.
    by rewrite (bind_ret _ E10), (bind_ret _ E11), (bind_ret _ E12), (bind_ret _ E13).
  - destruct H13 as (Hf & Hr & Hw). split; [|done].
    rewrite Hf. do 2 f_equal. unfold chant_text, chant_head, chant_lines.
    rewrite <- !app_assoc. reflexivity.
Qed.

Lemma write_chant_cut good bad rest p w :
  p ∉ unwritable w → Forall (λ s, encodable s = true) good →
  encodable bad = false →
  ∃ w', _write_chant_file (good ++ bad :: rest) p w = Ret false w'
        ∧ file_holds p (chant_head (clock w (clock_pos w)) (length (good ++ bad :: rest))
                          ++ chant_lines good) w w'.
Proof.
  intros Hp Hgood Hbad. unfold _write_chant_file.
  destruct (chant_head_written (length (good ++ bad :: rest)) p w Hp) as (w9 & H9 & Ehead).
  pose proof (write_lines_cut p good bad rest _ _ _ H9 Hgood Hbad) as (w10 & E10 & H10).
  pose proof (logger_holds ERROR
                (py "❌ Error writing chant file: " ++ exn_name UnicodeEncodeError)
                p _ _ _ H10) as (w11 & E11 & H11).
  exists w11. split; [|exact H11].
  erewrite try_exc; [by rewrite (bind_ret _ E11)|].
  rewrite Ehead. by rewrite (bind_exc _ E10).
Qed.


(** X13: a chant whose writing stops at a line that cannot be encoded leaves
    the file with its header and the lines before that one, without the
    closing lines, and [_write_chant_file] returns [False]. *)
Theorem chant_writer_cut (good : list pystr) (bad : pystr) (rest : list pystr)
    (p : string) (w : world) :
  p ∉ unwritable w → Forall (λ s, encodable s = true) good →
  encodable bad = false →
  ∃ w', _write_chant_file (good ++ bad :: rest) p w = Ret false w'
        ∧ files w' !! p
          = Some (Text (chant_head (clock w (clock_pos w)) (length (good ++ bad :: rest))
                          ++ chant_lines good)).
Proof.
  intros Hp Hgood Hbad.
  destruct (write_chant_cut good bad rest p w Hp Hgood Hbad) as (w' & E & Hf & _).
  by exists w'.
Qed.

Lemma chant_writer_cut_witness :
  ∃ w', @_write_chant_file [py "a"; [0xD800]; py "b"] "out.txt" blank_world = Ret false w'
        ∧ files w' !! "out.txt"
          = Some (Text (chant_head (clock blank_world (clock_pos blank_world)) 3
                          ++ chant_lines [py "a"])).
Proof.
  apply (chant_writer_cut [py "a"] [0xD800] [py "b"] "out.txt" blank_world).
  - vm_compute. set_solver.
  - by repeat constructor.
  - reflexivity.
Defined.

Lemma not_both_empty (S M : list pystr) :
  S ++ M ≠ [] → bool_decide (S = []) && bool_decide (M = []) = false.
Proof.
  intros Hne. destruct S as [|s S]; [|done]. destruct M as [|m M]; [|done].
  by destruct Hne.
Qed.

Lemma load_runs filename w :
  ∃ w', _load_extracted_content filename w = Ret (readable_content w filename) w'
        ∧ logged w w'.
Proof.
  destruct (load_cases filename w) as (w' & Hl & E). exists w'. split; [|exact Hl].
  unfold readable_content.
  destruct (files w !! get_output_path filename) as [[t|]|]; [|done..].
  by destruct (bool_decide _).
Qed.

Lemma readable_content_steady filename w w' :
  steady w w' → readable_content w' filename = readable_content w filename.
Proof.
  intros (_ & Hf & Hr & _). unfold readable_content. by rewrite Hf, Hr.
Qed.

Lemma generate_chant_nothing_read w :
  readable_content w "symboles_extraits.txt" = [] →
  readable_content w "mantras_extraits.txt" = [] →
  ∃ w', generate_chant w = Ret false w' ∧ logged w w'.
Proof.
  intros HS HM. unfold generate_chant. rewrite bind_logger.
  match goal with |- context [bind (_load_extracted_content _) _ ?wa] =>
    assert (logged w wa) as La by solve_logged;
    destruct (load_runs "symboles_extraits.txt" wa) as (w1 & E1 & L1)
  end.
  rewrite (bind_ret _ E1).
  destruct (load_runs "mantras_extraits.txt" w1) as (w2 & E2 & L2).
  rewrite (bind_ret _ E2).
  rewrite (readable_content_steady "mantras_extraits.txt" w w1)
    by (apply logged_steady; eapply logged_trans; [exact La | exact L1]).
  rewrite (readable_content_steady "symboles_extraits.txt" w)
    by (by apply logged_steady).
  rewrite HS, HM. rewrite bool_decide_true by done. cbn [andb]. rewrite bind_logger.
  eexists. split; [reflexivity|]. solve_logged.
  eapply logged_trans; [|exact L2]. eapply logged_trans; [|exact L1]. exact La.
Qed.

Lemma generate_chant_fuses w :
  readable_content w "symboles_extraits.txt" ++ readable_content w "mantras_extraits.txt"
    ≠ [] →
  ∃ shuffled w3,
    shuffled ≡ₚ readable_content w "symboles_extraits.txt"
                ++ readable_content w "mantras_extraits.txt"
    ∧ steady w w3
    ∧ generate_chant w = _write_chant_file (glitch_loop 0 shuffled) chant_path w3.
Proof.
  intros Hne. unfold generate_chant. rewrite bind_logger.
  match goal with |- context [bind (_load_extracted_content _) _ ?wa] =>
    assert (logged w wa) as La by solve_logged;
    destruct (load_runs "symboles_extraits.txt" wa) as (w1 & E1 & L1);
    rewrite (bind_ret _ E1);
    rewrite (readable_content_steady "symboles_extraits.txt" w wa)
      by (by apply logged_steady)
  end.
  destruct (load_runs "mantras_extraits.txt" w1) as (w2 & E2 & L2).
  rewrite (bind_ret _ E2).
  assert (logged w w2) as Lw2.
  { eapply logged_trans; [|exact L2]. eapply logged_trans; [|exact L1]. exact La. }
  rewrite (readable_content_steady "mantras_extraits.txt" w w1)
    by (apply logged_steady; eapply logged_trans; [exact La | exact L1]).
  set (S := readable_content w "symboles_extraits.txt") in *.
  set (M := readable_content w "mantras_extraits.txt") in *.
  rewrite (not_both_empty S M Hne).
  destruct (fuse_spec S M w2) as (shuffled & w3 & E3 & Hperm & _).
  rewrite (bind_ret _ E3). cbn zeta.
  pose proof (quiet_fuse S M w2) as Hq. rewrite E3 in Hq. simpl in Hq.
  exists shuffled, w3. split; [exact Hperm|]. split; [|reflexivity].
  exact (steady_trans _ _ _ (logged_steady _ _ Lw2) Hq).
Qed.

Lemma generate_chant_written w :
  readable_content w "symboles_extraits.txt" ++ readable_content w "mantras_extraits.txt"
    ≠ [] →
  Forall (λ s, encodable s = true)
    (readable_content w "symboles_extraits.txt"
     ++ readable_content w "mantras_extraits.txt") →
  chant_path ∉ unwritable w →
  ∃ shuffled w',
    generate_chant w = Ret true w'
    ∧ shuffled ≡ₚ readable_content w "symboles_extraits.txt"
                  ++ readable_content w "mantras_extraits.txt"
    ∧ file_holds chant_path
        (chant_text (clock w (clock_pos w)) (glitch_loop 0 shuffled)) w w'.
Proof.
  intros Hne Henc Hw.
  destruct (generate_chant_fuses w Hne)
    as (shuffled & w3 & Hperm & (_ & _ & Hr3 & Hw3 & Hc3 & Hp3) & ->).
  destruct (write_chant_done (glitch_loop 0 shuffled) chant_path w3) as (w4 & E4 & H4).
  { by rewrite Hw3. }
  { apply glitch_loop_encodable.
    eapply Forall_forall. intros s Hs. rewrite Hperm in Hs.
    by eapply (proj1 (Forall_forall _ _) Henc). }
  exists shuffled, w4. split; [exact E4|]. split; [exact Hperm|].
  destruct H4 as (Hf4 & Hr4 & Hw4). rewrite Hc3, Hp3 in Hf4.
  split; [exact Hf4|]. split; congruence.
Qed.

Lemma write_chant_true content p w w' :
  _write_chant_file content p w = Ret true w' →
  files w' !! p = Some (Text (chant_text (clock w (clock_pos w)) content)).
Proof.
  intros E.
  destruct (decide (p ∈ unwritable w)) as [Hp|Hp].
  { destruct (write_chant_unwritable content p w Hp) as (w1 & E1 & _). congruence. }
  destruct (first_unencodable content) as [Hall | (good & bad & rest & -> & Hgood & Hbad)].
  - destruct (write_chant_done content p w Hp Hall) as (w1 & E1 & Hf & _). congruence.
  - destruct (write_chant_cut good bad rest p w Hp Hgood Hbad) as (w1 & E1 & _). congruence.
Qed.

Lemma generate_chant_true w w' :
  generate_chant w = Ret true w' →
  ∃ shuffled,
    shuffled ≡ₚ readable_content w "symboles_extraits.txt"
                ++ readable_content w "mantras_extraits.txt"
    ∧ shuffled ≠ []
    ∧ files w' !! chant_path
      = Some (Text (chant_text (clock w (clock_pos w)) (glitch_loop 0 shuffled))).
Proof.
  intros E.
  destruct (decide (readable_content w "symboles_extraits.txt"
                    ++ readable_content w "mantras_extraits.txt" = [])) as [Hnil|Hne].
  { apply app_eq_nil in Hnil as [HS HM].
    destruct (generate_chant_nothing_read w HS HM) as (w1 & E1 & _). congruence. }
  destruct (generate_chant_fuses w Hne)
    as (shuffled & w3 & Hperm & (_ & _ & _ & _ & Hc3 & Hp3) & Efuse).
  exists shuffled. split; [exact Hperm|]. split.
  - intros ->. by apply Permutation_nil_l in Hperm.
  - rewrite Efuse in E. apply write_chant_true in E. by rewrite Hc3, Hp3 in E.
Qed.


(** X15: when the two reports give at least one line and the chant file can
    be written, [generate_chant] returns [True] and the chant file holds the
    header, then the decoration by position of some permutation of the
    symbol lines followed by the mantra lines, then the closing lines. *)
Theorem generate_chant_writes_chant (w : world) :
  readable_content w "symboles_extraits.txt" ++ readable_content w "mantras_extraits.txt"
    ≠ [] →
  Forall (λ s, encodable s = true)
    (readable_content w "symboles_extraits.txt"
     ++ readable_content w "mantras_extraits.txt") →
  chant_path ∉ unwritable w →
  ∃ shuffled w',
    generate_chant w = Ret true w'
    ∧ shuffled ≡ₚ readable_content w "symboles_extraits.txt"
                  ++ readable_content w "mantras_extraits.txt"
    ∧ files w' !! chant_path
      = Some (Text (chant_text (clock w (clock_pos w)) (glitch_loop 0 shuffled))).
Proof.
  intros Hne Henc Hw.
  destruct (generate_chant_written w Hne Henc Hw) as (shuffled & w' & E & Hperm & Hf & _).
  by exists shuffled, w'.
Qed.

End ChantCases.


Lemma generate_chant_writes_chant_witness :
  ∃ shuffled w',
    @generate_chant sample_runtime stale_world = Ret true w'
    ∧ shuffled ≡ₚ @readable_content sample_runtime stale_world "symboles_extraits.txt"
                  ++ @readable_content sample_runtime stale_world "mantras_extraits.txt"
    ∧ files w' !! chant_path
      = Some (Text (chant_text (clock stale_world (clock_pos stale_world))
                      (glitch_loop 0 shuffled))).
Proof.
  apply (@generate_chant_writes_chant sample_runtime stale_world).
  - vm_compute. discriminate.
  - apply encodable_all. vm_compute. reflexivity.
  - vm_compute. set_solver.
Defined.

(** ** The ritual as a whole *)

Lemma bind_inv {A B} (m : M A) (k : A → M B) w b w' :
  bind m k w = Ret b w' → ∃ a w1, m w = Ret a w1 ∧ k a w1 = Ret b w'.
Proof. unfold bind. destruct (m w) as [a w1|e w1]; [eauto | done]. Qed.

Lemma tally_inv {B} (ok : bool) (count : nat) msg_ok msg_fail (k : nat → M B) w b w' :
  bind (if ok then logger INFO msg_ok ;; ret (count + 1)%nat
        else logger ERROR msg_fail ;; ret count) k w = Ret b w' →
  ∃ w1, logged w w1 ∧ k (if ok then count + 1 else count)%nat w1 = Ret b w'.
Proof.
  rewrite bind_tally. intros E. eexists. split; [|exact E]. apply logged_logger.
Qed.

(** [run_complete_ritual] returns [True] only after each of the three
    stages has been run, in order, and has returned [True]. *)
Lemma ritual_true (self : orchestrator) w w' :
  run_complete_ritual self w = Ret true w' →
  ∃ wa w1 wb w2 wc w3,
    logged w wa ∧ symbol_extractor self wa = Ret true w1
    ∧ logged w1 wb ∧ mantra_extractor self wb = Ret true w2
    ∧ logged w2 wc ∧ chant_generator self wc = Ret true w3
    ∧ logged w3 w'.
Proof.
  unfold run_complete_ritual. cbn zeta. rewrite !bind_logger. intros E.
  match type of E with context [bind (symbol_extractor self) _ ?wa] =>
    assert (logged w wa) as La by solve_logged
  end.
  apply bind_inv in E as (ok1 & w1 & E1 & E).
  rewrite bind_tally, bind_logger in E.
  match type of E with context [bind (mantra_extractor self) _ ?wb] =>
    assert (logged w1 wb) as Lb by solve_logged
  end.
  apply bind_inv in E as (ok2 & w2 & E2 & E).
  rewrite bind_tally, bind_logger in E.
  match type of E with context [bind (chant_generator self) _ ?wc] =>
    assert (logged w2 wc) as Lc by solve_logged
  end.
  apply bind_inv in E as (ok3 & w3 & E3 & E).
  rewrite bind_tally, bind_logger in E.
  destruct ok1, ok2, ok3; cbn [Nat.add] in E;
    first [rewrite bool_decide_true in E by (clear; done)
          | rewrite bool_decide_false in E by (clear; done)];
    rewrite ?bind_logger in E; unfold ret in E; try discriminate E.
  injection E as <-.
  eexists _, _, _, _, _, _.
  split; [exact La|]. split; [exact E1|]. split; [exact Lb|]. split; [exact E2|].
  split; [exact Lc|]. split; [exact E3|]. solve_logged.
Qed.

Section Ritual.
Context `{PyRuntime}.

Lemma write_report_true title wording done_msg fail_msg entries p w w' :
  encodable title = true → encodable wording = true →
  write_report title wording done_msg fail_msg entries p w = Ret true w' →
  files w' !! p
  = Some (Text (report_text title wording (clock w (clock_pos w))
                  (map format_value entries))).
Proof.
  intros Htitle Hwording E.
  destruct (decide (p ∈ unwritable w)) as [Hp|Hp].
  { destruct (write_report_unwritable title wording done_msg fail_msg entries p w Hp)
      as (w1 & E1 & _). congruence. }
  destruct (first_unwritable entries) as [Hall | (good & bad & rest & -> & Hgood & Hbad)].
  - destruct (write_report_done title wording done_msg fail_msg entries p w
                Htitle Hwording Hp Hall) as (w1 & E1 & Hf & _). congruence.
  - destruct (write_report_cut title wording done_msg fail_msg good bad rest p w
                Htitle Hp Hgood Hbad) as (w1 & E1 & _). congruence.
Qed.

Lemma extract_symbols_true w w' :
  extract_symbols w = Ret true w' →
  holds_report (py "🔮 Symboles analysés dans FRACTURA.Δ02") (py " symboles ---")
    symbols_path w'.
Proof.
  unfold extract_symbols. rewrite bind_logger. intros E.
  apply bind_inv in E as (data & w1 & _ & E).
  destruct data as [data|]; [|discriminate E].
  destruct (negb (truthy data)); [discriminate E|].
  apply bind_inv in E as (symbols & w2 & _ & E).
  destruct (decide (symbols = [])) as [->|Hne].
  { rewrite bool_decide_true in E by done. rewrite bind_logger in E. discriminate E. }
  rewrite bool_decide_false in E by done. cbn zeta in E.
  rewrite _write_symbols_file_unfold in E.
  apply write_report_true in E; [|reflexivity..].
  eexists _, (map format_value symbols). split; [|exact E].
  by destruct symbols.
Qed.

Lemma extract_mantras_true w w' :
  extract_mantras w = Ret true w' →
  holds_report (py "🗝️ Mantras extraits de FRACTURA.Δ02") (py " éléments narratifs ---")
    mantras_path w'.
Proof.
  unfold extract_mantras. rewrite bind_logger. intros E.
  apply bind_inv in E as (data & w1 & _ & E).
  destruct data as [data|]; [|discriminate E].
  destruct (negb (truthy data)); [discriminate E|].
  apply bind_inv in E as (mantras & w2 & _ & E).
  destruct (decide (mantras = [])) as [->|Hne].
  { rewrite bool_decide_true in E by done. rewrite bind_logger in E. discriminate E. }
  rewrite bool_decide_false in E by done. cbn zeta in E.
  rewrite _write_mantras_file_unfold in E.
  apply write_report_true in E; [|reflexivity..].
  eexists _, (map format_value mantras). split; [|exact E].
  by destruct mantras.
Qed.

Lemma readable_content_same filename w w' :
  files w' !! get_output_path filename = files w !! get_output_path filename →
  unreadable w' = unreadable w →
  readable_content w' filename = readable_content w filename.
Proof. intros Hf Hr. unfold readable_content. by rewrite Hf, Hr. Qed.

Lemma holds_report_same title wording p w w' :
  files w' !! p = files w !! p →
  holds_report title wording p w → holds_report title wording p w'.
Proof. intros Hf (t & lines & Hne & Hp). exists t, lines. by rewrite Hf. Qed.

Lemma output_paths_differ :
  symbols_path ≠ mantras_path ∧ symbols_path ≠ chant_path ∧ mantras_path ≠ chant_path.
Proof. repeat split; vm_compute; discriminate. Qed.

Lemma ritual_outputs w w' :
  run_complete_ritual FracturaOrchestrator w = Ret true w' →
  holds_report (py "🔮 Symboles analysés dans FRACTURA.Δ02") (py " symboles ---")
    symbols_path w'
  ∧ holds_report (py "🗝️ Mantras extraits de FRACTURA.Δ02") (py " éléments narratifs ---")
      mantras_path w'
  ∧ ∃ shuffled t,
      shuffled ≡ₚ readable_content w' "symboles_extraits.txt"
                  ++ readable_content w' "mantras_extraits.txt"
      ∧ shuffled ≠ []
      ∧ files w' !! chant_path = Some (Text (chant_text t (glitch_loop 0 shuffled))).
Proof.
  intros E.
  apply ritual_true in E as (wa & w1 & wb & w2 & wc & w3 & La & E1 & Lb & E2 & Lc & E3 & L').
  cbn [FracturaOrchestrator symbol_extractor mantra_extractor chant_generator] in E1, E2, E3.
  destruct output_paths_differ as (Hsm & Hsc & Hmc).
  pose proof (extract_symbols_true _ _ E1) as R1.
  pose proof (extract_mantras_true _ _ E2) as R2.
  pose proof (touches_extract_mantras wb) as T2. rewrite E2 in T2. simpl in T2.
  pose proof (touches_generate_chant wc) as T3. rewrite E3 in T3. simpl in T3.
  destruct T2 as (_ & _ & _ & F2). destruct T3 as (_ & U3 & _ & F3).
  destruct (logged_fields _ _ Lb) as (_ & Fb & _).
  destruct (logged_fields _ _ Lc) as (_ & Fc & _).
  destruct (logged_fields _ _ L') as (_ & F' & U' & _).
  assert (∀ q, q ≠ chant_path → files w' !! q = files wc !! q) as Hkeep.
  { intros q Hq. rewrite F'. apply F3. set_solver. }
  split; [|split].
  - apply (holds_report_same _ _ _ w1); [|exact R1].
    rewrite (Hkeep _ Hsc), Fc, (F2 symbols_path) by set_solver. by rewrite Fb.
  - apply (holds_report_same _ _ _ w2); [|exact R2].
    by rewrite (Hkeep _ Hmc), Fc.
  - destruct (generate_chant_true _ _ E3) as (shuffled & Hperm & Hne & Hf).
    exists shuffled, (clock wc (clock_pos wc)).
    rewrite (readable_content_same "symboles_extraits.txt" wc w'),
            (readable_content_same "mantras_extraits.txt" wc w');
      [|first [apply (Hkeep _ Hmc) | apply (Hkeep _ Hsc) | congruence]..].
    split; [exact Hperm|]. split; [exact Hne|]. by rewrite F'.
Qed.

(** X16: when the ritual of the real orchestrator returns [True], the run
    leaves a symbol report and a mantra report of at least one entry each,
    and a chant file whose invocation lines are the decoration by position
    of a permutation of the lines these two reports give to the reader. *)
Theorem ritual_success_leaves_outputs (w w' : world) :
  run_complete_ritual FracturaOrchestrator w = Ret true w' →
  holds_report (py "🔮 Symboles analysés dans FRACTURA.Δ02") (py " symboles ---")
    symbols_path w'
  ∧ holds_report (py "🗝️ Mantras extraits de FRACTURA.Δ02") (py " éléments narratifs ---")
      mantras_path w'
  ∧ ∃ shuffled t,
      shuffled ≡ₚ readable_content w' "symboles_extraits.txt"
                  ++ readable_content w' "mantras_extraits.txt"
      ∧ shuffled ≠ []
      ∧ files w' !! chant_path = Some (Text (chant_text t (glitch_loop 0 shuffled))).
Proof. apply ritual_outputs. Qed.

End Ritual.

(** X17: whatever the three stages are, [run_complete_ritual] returns [True]
    only after it has run each of them, in order, and each has returned
    [True]; between two stages only the log changes. *)
Theorem ritual_true_needs_every_stage (self : orchestrator) (w w' : world) :
  run_complete_ritual self w = Ret true w' →
  ∃ wa w1 wb w2 wc w3,
    logged w wa ∧ symbol_extractor self wa = Ret true w1
    ∧ logged w1 wb ∧ mantra_extractor self wb = Ret true w2
    ∧ logged w2 wc ∧ chant_generator self wc = Ret true w3
    ∧ logged w3 w'.
Proof. apply ritual_true. Qed.

(** ** The properties at the sample document *)

Lemma extract_symbols_then_read_witness :
  ∃ w', (ok <- @extract_symbols sample_runtime ;;
         back <- @_load_extracted_content sample_runtime "symboles_extraits.txt" ;;
         ret (ok, back)) (world_with sample_document)
        = Ret (true, keep_first ([py "Φ"; py "Ψ"; py "Φ"] ++ [py "glitch"])) w'.
Proof.
  apply (@extract_symbols_then_read sample_runtime sample_document_entries
           sample_document_symbolic [py "Φ"; py "Ψ"; py "Φ"] [py "glitch"]
           (world_with sample_document)).
  - reflexivity.
  - done.
  - vm_compute. reflexivity.
  - vm_compute. reflexivity.
  - vm_compute. reflexivity.
  - done.
  - plain_entries.
  - vm_compute. set_solver.
  - vm_compute. set_solver.
Defined.

Lemma extract_mantras_writes_report_witness :
  ∃ w', @extract_mantras sample_runtime (world_with sample_document) = Ret true w'
        ∧ file_holds mantras_path
            (report_text (py "🗝️ Mantras extraits de FRACTURA.Δ02")
               (py " éléments narratifs ---")
               (clock (world_with sample_document) (clock_pos (world_with sample_document)))
               (mantra_lines [py "om"; py "om"] (py "seer") [py "loop"]))
            (world_with sample_document) w'.
Proof.
  apply (@extract_mantras_writes_report sample_runtime sample_document_entries
           sample_document_narrative [py "om"; py "om"] (py "seer") [py "loop"]
           (world_with sample_document)).
  - reflexivity.
  - done.
  - vm_compute. reflexivity.
  - vm_compute. reflexivity.
  - vm_compute. reflexivity.
  - vm_compute. reflexivity.
  - vm_compute. discriminate.
  - apply encodable_all. vm_compute. reflexivity.
  - vm_compute. set_solver.
Defined.

Lemma extract_mantras_then_read_witness :
  ∃ w', (ok <- @extract_mantras sample_runtime ;;
         back <- @_load_extracted_content sample_runtime "mantras_extraits.txt" ;;
         ret (ok, back)) (world_with sample_document)
        = Ret (true, mantra_lines [py "om"; py "om"] (py "seer") [py "loop"]) w'.
Proof.
  apply (@extract_mantras_then_read sample_runtime sample_document_entries
           sample_document_narrative [py "om"; py "om"] (py "seer") [py "loop"]
           (world_with sample_document)).
  - reflexivity.
  - done.
  - vm_compute. reflexivity.
  - vm_compute. reflexivity.
  - vm_compute. reflexivity.
  - vm_compute. reflexivity.
  - vm_compute. discriminate.
  - change (mantra_lines [py "om"; py "om"] (py "seer") [py "loop"])
      with ([py "om"; py "om"] ++ [py "[ARCHETYPE] " ++ py "seer"]
            ++ [py "[TECHNIQUE] " ++ py "loop"]).
    plain_entries.
  - vm_compute. set_solver.
  - vm_compute. set_solver.
Defined.

Lemma ritual_success_leaves_outputs_witness :
  holds_report (py "🔮 Symboles analysés dans FRACTURA.Δ02") (py " symboles ---")
    symbols_path sample_ritual_world
  ∧ holds_report (py "🗝️ Mantras extraits de FRACTURA.Δ02") (py " éléments narratifs ---")
      mantras_path sample_ritual_world
  ∧ ∃ shuffled t,
      shuffled ≡ₚ @readable_content sample_runtime sample_ritual_world "symboles_extraits.txt"
                  ++ @readable_content sample_runtime sample_ritual_world
                       "mantras_extraits.txt"
      ∧ shuffled ≠ []
      ∧ files sample_ritual_world !! chant_path
        = Some (Text (chant_text t (glitch_loop 0 shuffled))).
Proof.
  apply (@ritual_success_leaves_outputs sample_runtime (world_with sample_document)).
  vm_compute. reflexivity.
Defined.

Lemma ritual_true_needs_every_stage_witness :
  ∃ wa w1 wb w2 wc w3,
    logged (world_with sample_document) wa
    ∧ @extract_symbols sample_runtime wa = Ret true w1
    ∧ logged w1 wb ∧ @extract_mantras sample_runtime wb = Ret true w2
    ∧ logged w2 wc ∧ @generate_chant sample_runtime wc = Ret true w3
    ∧ logged w3 sample_ritual_world.
Proof.
  apply (ritual_true_needs_every_stage (@FracturaOrchestrator sample_runtime)
           (world_with sample_document) sample_ritual_world).
  vm_compute. reflexivity.
Defined.

(** ** The words of a decorated line *)










(** ** What the ritual can change *)





(** ** Gathering values of any scalar type *)

Lemma py_eq_sym a b : py_eq a b = py_eq b a.
Proof.
  destruct a as [|x|x|s|l|d], b as [|y|y|t|l'|d']; cbn [py_eq]; try reflexivity.
  - apply bool_decide_ext. naive_solver.
  - apply Z.eqb_sym.
  - apply bool_decide_ext. naive_solver.
Qed.

Lemma py_eq_refl a : hashable a = true → py_eq a a = true.
Proof.
  destruct a; cbn [py_eq hashable]; intros Ha; try done.
  - by apply bool_decide_eq_true.
  - apply Z.eqb_refl.
  - by apply bool_decide_eq_true.
Qed.

Lemma set_contains_false seen x :
  set_contains seen x = false → ∀ y, y ∈ seen → py_eq x y = false.
Proof.
  unfold set_contains. induction seen as [|z seen IH]; intros Hx y Hy.
  - by apply elem_of_nil in Hy.
  - cbn [existsb] in Hx. apply orb_false_iff in Hx as [Hz Hx].
    apply elem_of_cons in Hy as [->|Hy]; [done | by apply IH].
Qed.

Lemma set_contains_true seen x :
  set_contains seen x = true ↔ ∃ y, y ∈ seen ∧ py_eq x y = true.
Proof.
  unfold set_contains. induction seen as [|z seen IH]; cbn [existsb].
  - split; [done|]. intros (y & Hy & _). by apply elem_of_nil in Hy.
  - rewrite orb_true_iff, IH. split.
    + intros [Hz | (y & Hy & Hxy)]; [exists z | exists y]; split; try done.
      * apply list_elem_of_here.
      * by apply list_elem_of_further.
    + intros (y & Hy & Hxy). apply elem_of_cons in Hy as [->|Hy]; [by left|].
      right. by exists y.
Qed.

Lemma distinct_values_snoc unique x :
  distinct_values unique = true → set_contains unique x = false →
  distinct_values (unique ++ [x]) = true.
Proof.
  induction unique as [|z unique IH]; intros Hd Hx; [done|].
  cbn [distinct_values app] in *. apply andb_true_iff in Hd as [Hz Hd].
  unfold set_contains in Hx. cbn [existsb] in Hx. apply orb_false_iff in Hx as [Hxz Hx].
  apply andb_true_iff. split; [|by apply IH].
  rewrite existsb_app. cbn [existsb]. rewrite py_eq_sym, Hxz.
  apply negb_true_iff in Hz. by rewrite Hz.
Qed.

(** The loop of [_gather_all_symbols] on values that can enter a set. *)
Lemma unique_loop_scalars (l : list json) : ∀ unique seen,
  Forall (λ v, hashable v = true) l →
  (∀ y, y ∈ seen ↔ y ∈ unique) →
  distinct_values unique = true →
  ∃ out, unique_loop l unique seen = inr (unique ++ out)
         ∧ out `sublist_of` l
         ∧ distinct_values (unique ++ out) = true
         ∧ ∀ x, x ∈ l → set_contains (unique ++ out) x = true.
Proof.
  induction l as [|x l IH]; intros unique seen Hl Hseen Hd.
  - exists []. rewrite app_nil_r. repeat split; [done..|].
    intros x Hx. by apply elem_of_nil in Hx.
  - inversion Hl as [|? ? Hx Hl']; subst. cbn [unique_loop]. rewrite Hx.
    destruct (set_contains seen x) eqn:Hin; cbn [negb].
    + destruct (IH unique seen Hl' Hseen Hd) as (out & E & Hsub & Hd' & Hcov).
      exists out. split; [exact E|]. split; [by apply sublist_cons|].
      split; [exact Hd'|]. intros y Hy. apply elem_of_cons in Hy as [->|Hy]; [|by apply Hcov].
      apply set_contains_true in Hin as (z & Hz & Hxz).
      apply set_contains_true. exists z. split; [|done].
      apply elem_of_app. left. by apply Hseen.
    + assert (set_contains unique x = false) as Hout.
      { destruct (set_contains unique x) eqn:Hu; [|done].
        apply set_contains_true in Hu as (z & Hz & Hxz).
        apply Hseen in Hz. by rewrite (set_contains_false _ _ Hin z Hz) in Hxz. }
      destruct (IH (unique ++ [x]) (x :: seen) Hl') as (out & E & Hsub & Hd' & Hcov).
      { intros y. rewrite elem_of_cons, elem_of_app, list_elem_of_singleton, Hseen.
        naive_solver. }
      { by apply distinct_values_snoc. }
      rewrite <- app_assoc in E, Hd', Hcov. cbn [app] in E, Hd', Hcov.
      exists (x :: out). split; [exact E|]. split; [by apply sublist_skip|].
      split; [exact Hd'|]. intros y Hy. apply elem_of_cons in Hy as [->|Hy]; [|by apply Hcov].
      apply set_contains_true. exists x. split; [|by apply py_eq_refl].
      apply elem_of_app. right. apply list_elem_of_here.
Qed.

Lemma bind_lift {A B} (r : exn + A) (k : A → M B) w :
  bind (lift r) k w = match r with inr a => k a w | inl e => Exc e w end.
Proof. by destruct r. Qed.

Lemma gather_symbols_scalars (d sec : list (pystr * json)) (ls lt : list json) (w : world) :
  field d "symbolic_analysis" (JDict []) = JDict sec →
  field sec "symbols" (JList []) = JList ls →
  field sec "aesthetic_techniques" (JList []) = JList lt →
  Forall (λ v, hashable v = true) (ls ++ lt) →
  ∃ out w', _gather_all_symbols (JDict d) w = Ret out w'
            ∧ logged w w'
            ∧ out `sublist_of` (ls ++ lt)
            ∧ distinct_values out = true
            ∧ ∀ x, x ∈ ls ++ lt → set_contains out x = true.
Proof.
  unfold field. intros Hsec Hs Ht Hall. unfold _gather_all_symbols.
  rewrite bind_lift. cbn [py_get]. rewrite Hsec.
  rewrite bind_lift. cbn [py_get]. rewrite Hs.
  rewrite bind_lift. cbn [extend py_iter app].
  rewrite bind_lift. cbn [py_get]. rewrite Ht.
  rewrite bind_lift. cbn [extend py_iter].
  destruct (unique_loop_scalars (ls ++ lt) [] [] Hall) as (out & E & Hsub & Hd & Hcov);
    [done..|].
  cbn [app] in E, Hd, Hcov. rewrite bind_lift, E. rewrite bind_logger.
  exists out. eexists. split; [reflexivity|]. split; [apply logged_logger|]. done.
Qed.

(** X21: for a symbolic section whose two fields are lists of values of any
    scalar type (strings, numbers, booleans, [null]), [_gather_all_symbols]
    returns a list in which no two values are equal for Python, which keeps
    the order of the document, and in which every value of the two lists has
    an equal; it changes nothing but the log. *)
Theorem gather_symbols_distinct (d sec : list (pystr * json)) (ls lt : list json)
    (w : world) :
  field d "symbolic_analysis" (JDict []) = JDict sec →
  field sec "symbols" (JList []) = JList ls →
  field sec "aesthetic_techniques" (JList []) = JList lt →
  Forall (λ v, hashable v = true) (ls ++ lt) →
  ∃ out w', _gather_all_symbols (JDict d) w = Ret out w'
            ∧ logged w w'
            ∧ out `sublist_of` (ls ++ lt)
            ∧ distinct_values out = true
            ∧ ∀ x, x ∈ ls ++ lt → set_contains out x = true.
Proof. apply gather_symbols_scalars. Qed.

Lemma gather_symbols_distinct_witness :
  ∃ out w', _gather_all_symbols
              (JDict [(py "symbolic_analysis", JDict mixed_symbolic)]) blank_world
            = Ret out w'
            ∧ logged blank_world w'
            ∧ out `sublist_of` ([JInt 1; JBool true; JStr (py "1"); JNull; JInt 1]
                                ++ [JBool false; JInt 0])
            ∧ distinct_values out = true
            ∧ ∀ x, x ∈ [JInt 1; JBool true; JStr (py "1"); JNull; JInt 1]
                       ++ [JBool false; JInt 0] →
                   set_contains out x = true.
Proof.
  apply (gather_symbols_distinct
           [(py "symbolic_analysis", JDict mixed_symbolic)] mixed_symbolic).
  - vm_compute. reflexivity.
  - vm_compute. reflexivity.
  - vm_compute. reflexivity.
  - repeat constructor.
Defined.

Example gather_symbols_mixed :
  returned (_gather_all_symbols
              (JDict [(py "symbolic_analysis", JDict mixed_symbolic)]) blank_world)
  = Some [JInt 1; JStr (py "1"); JNull; JBool false].
Proof. vm_compute. reflexivity. Qed.

(** ** When an extraction stage raises *)





Section Raising.
Context `{PyRuntime}.









End Raising.

